(** * my_data_app.py: scraping loop, cleaning pipeline and import adapter

    A shallow embedding of the core of [my_data_app.py] (the Streamlit
    views are left out): [detect_last_page], [parse_container],
    [scrape_category], [clean_price], [clean_address],
    [clean_raw_dataframe] and [save_uploaded_to_raw], over an explicit
    model of the SQLite tables the module-level cursor [c] writes to. *)

From Stdlib Require Import ZArith NArith List Bool String Ascii Lia.
From Stdlib Require Import DecimalString Floats.SpecFloat.
From stdpp Require Import base option list gmap.
Import ListNotations.

Local Open Scope N_scope.

(** ** Python [str]

    A Python string is a sequence of Unicode code points. *)

Module PyStr.

Abbreviation char := N (only parsing).
Abbreviation str := (list N) (only parsing).

(** An ASCII literal, one code point per character. *)
Definition u (s : string) : str :=
  List.map N_of_ascii (list_ascii_of_string s).

(** [str.isspace] on one character: general category Zs or bidirectional
    class WS, B or S (CPython's [_PyUnicode_IsWhitespace]). *)
Definition isspace (c : char) : bool :=
  ((9 <=? c) && (c <=? 13)) || ((28 <=? c) && (c <=? 32))
  || (c =? 133) || (c =? 160) || (c =? 5760)
  || ((8192 <=? c) && (c <=? 8202))
  || (c =? 8232) || (c =? 8233) || (c =? 8239) || (c =? 8287)
  || (c =? 12288).

(** [s.startswith(p)] *)
Fixpoint startswith (p s : str) : bool :=
  match p, s with
  | [], _ => true
  | _ :: _, [] => false
  | a :: p', b :: s' => (a =? b) && startswith p' s'
  end.

(** [sub in s] *)
Fixpoint contains (sub s : str) : bool :=
  startswith sub s ||
  match s with
  | [] => false
  | _ :: s' => contains sub s'
  end.

(** [s.replace(old, new)]: occurrences of [old] are found left to right
    and do not overlap; [skip] counts the characters of the occurrence
    just replaced that are still to be passed over. *)
Fixpoint replace_from (old new : str) (skip : nat) (s : str) : str :=
  match s with
  | [] => []
  | c :: s' =>
      match skip with
      | S k => replace_from old new k s'
      | O =>
          if startswith old s
          then new ++ replace_from old new (Nat.pred (length old)) s'
          else c :: replace_from old new O s'
      end
  end.

Definition replace (old new s : str) : str :=
  match old with
  | [] => new ++ flat_map (fun c => c :: new) s
  | _ :: _ => replace_from old new O s
  end.

(** [s.split(sep)] for a non-empty separator: the pieces between the
    occurrences of [sep], found left to right; [cur] holds the piece
    being read, reversed. *)
Fixpoint split_from (sep : str) (skip : nat) (cur : str) (s : str)
  : list str :=
  match s with
  | [] => [rev cur]
  | c :: s' =>
      match skip with
      | S k => split_from sep k cur s'
      | O =>
          if startswith sep s
          then rev cur :: split_from sep (Nat.pred (length sep)) [] s'
          else split_from sep O (c :: cur) s'
      end
  end.

Definition split (sep s : str) : list str := split_from sep O [] s.

(** [s.lstrip()], [s.rstrip()], [s.strip()] *)
Fixpoint lstrip (s : str) : str :=
  match s with
  | c :: s' => if isspace c then lstrip s' else s
  | [] => []
  end.

Definition rstrip (s : str) : str := rev (lstrip (rev s)).

Definition strip (s : str) : str := rstrip (lstrip s).

(** [s.split()]: the maximal runs of non-whitespace characters. *)
Fixpoint words_from (cur : str) (s : str) : list str :=
  match s with
  | [] => match cur with [] => [] | _ :: _ => [rev cur] end
  | c :: s' =>
      if isspace c
      then match cur with
           | [] => words_from [] s'
           | _ :: _ => rev cur :: words_from [] s'
           end
      else words_from (c :: cur) s'
  end.

Definition split_ws (s : str) : list str := words_from [] s.

(** [sep.join(l)] *)
Fixpoint join (sep : str) (l : list str) : str :=
  match l with
  | [] => []
  | [w] => w
  | w :: l' => w ++ sep ++ join sep l'
  end.

(** [str(n)] for a non-negative integer. *)
Definition of_nat (n : nat) : str :=
  u (NilEmpty.string_of_uint (Nat.to_uint n)).

End PyStr.

Import PyStr.

(** ** The Unicode character database

    [str.isdigit] and the value of a decimal digit come from the Unicode
    tables of the running interpreter, which the repository does not
    hold: they are taken as an interface.  [decimal c] is the value of
    [c] when its general category is Nd, the characters [int] and
    [float] read as digits. *)

Class UnicodeDB := {
  isdigit : char -> bool;
  decimal : char -> option N
}.

(** What the tables say below U+0100 (the digits, and the superscripts
    one, two and three, which are digits but not decimal), and that a
    decimal digit is a digit. *)
Definition ascii_digit (c : char) : bool := (48 <=? c) && (c <=? 57).

Class UnicodeLaws (U : UnicodeDB) : Prop := {
  isdigit_latin1 : forall c, c < 256 ->
    isdigit c = ascii_digit c || (c =? 178) || (c =? 179) || (c =? 185);
  decimal_latin1 : forall c, c < 256 ->
    decimal c = if ascii_digit c then Some (c - 48) else None;
  decimal_isdigit : forall c d, decimal c = Some d -> isdigit c = true
}.

(** The tables cut down to that range. *)
Definition latin1_db : UnicodeDB := {|
  isdigit c := ascii_digit c || (c =? 178) || (c =? 179) || (c =? 185);
  decimal c := if ascii_digit c then Some (c - 48) else None
|}.

(** ** Python values and exceptions *)

Inductive exn :=
| KeyError (key : str)
| ValueError.

(** A value read from a table cell or a parsed page: [None], a [str], or
    any other object, of which the code only uses [bool(x)] and
    [str(x)]. *)
Inductive pyval :=
| PNone
| PStr (s : str)
| PObj (truth : bool) (repr : str).

Definition py_str (v : pyval) : str :=
  match v with
  | PNone => u "None"
  | PStr s => s
  | PObj _ r => r
  end.

Definition truthy (v : pyval) : bool :=
  match v with
  | PNone => false
  | PStr [] => false
  | PStr (_ :: _) => true
  | PObj t _ => t
  end.

(** [a or b] *)
Definition py_or (a b : pyval) : pyval := if truthy a then a else b.

Definition of_opt (o : option str) : pyval :=
  match o with
  | Some s => PStr s
  | None => PNone
  end.

(** Binary64 floats are Rocq's [spec_float] at precision 53. *)
Definition float := spec_float.

(** The double nearest to [m / 10^k] (ties to even), which is what
    [float] returns for a decimal literal with digits [m] and [k] digits
    after the point. *)
Definition float_of_decimal (m : N) (k : nat) : float :=
  match m with
  | N0 => S754_zero false
  | Npos p =>
      SFdiv 53 1024 (S754_finite false p 0)
                    (S754_finite false (Nat.iter k (Pos.mul 10) 1%positive) 0)
  end.

(** ** [int] and [float] on digit strings

    The source only passes [int] and [float] strings filtered down to
    [isdigit] characters (and ['.'] for [float]), so sign, exponent,
    underscores and surrounding blanks are left out of the grammar. *)

Section Builtins.
Context {U : UnicodeDB}.

Fixpoint digits_value (acc : N) (s : str) : option N :=
  match s with
  | [] => Some acc
  | c :: s' =>
      match decimal c with
      | Some d => digits_value (10 * acc + d) s'
      | None => None
      end
  end.

(** [int(s)]: a non-empty run of decimal digits, else [ValueError]. *)
Definition py_int (s : str) : exn + N :=
  match s with
  | [] => inl ValueError
  | _ :: _ =>
      match digits_value 0 s with
      | Some n => inr n
      | None => inl ValueError
      end
  end.

(** [float(s)]: digits with at most one point and at least one digit,
    else [ValueError]. *)
Definition py_float (s : str) : exn + float :=
  match split [46] s with
  | [ip] =>
      match py_int ip with
      | inr m => inr (float_of_decimal m 0)
      | inl e => inl e
      end
  | [ip; fp] =>
      match py_int (ip ++ fp) with
      | inr m => inr (float_of_decimal m (length fp))
      | inl e => inl e
      end
  | _ => inl ValueError
  end.

(** ** Cleaning functions *)

Definition price_tokens : list str :=
  [u "CFA"; u "cfa"; u "XOF"; [160]; [160]; u " "].

(** [ch.isdigit() or ch == "."] *)
Definition price_char (ch : char) : bool := isdigit ch || (ch =? 46).

(** The value of [digits] in [clean_price]. *)
Definition price_digits (s : str) : str :=
  let s := fold_left (fun s tok => replace tok [] s) price_tokens s in
  let s := replace (u ",") [] s in
  List.filter price_char s.

Definition clean_price (raw_price : pyval) : option float :=
  match raw_price with
  | PNone => None
  | _ =>
      let digits := price_digits (py_str raw_price) in
      match digits with
      | [] => None
      | _ :: _ =>
          match py_float digits with
          | inr x => Some x
          | inl _ => None
          end
      end
  end.

Definition marker : str := u "location_on".

Definition clean_address (raw_addr : pyval) : option str :=
  match raw_addr with
  | PNone => None
  | _ =>
      let s := strip (replace marker [] (py_str raw_addr)) in
      let s := join (u " ") (split_ws s) in
      match s with
      | [] => None
      | _ :: _ => Some s
      end
  end.

(** ** Parsed pages *)

(** A [<p>] element: its text and the text of its first [<a>] child. *)
Record p_tag := {
  p_text : str;
  p_a : option str
}.

(** A listing card, by what [container.find] returns on it: the three
    classed paragraphs and the first [<img>] with its [src] attribute. *)
Record container := {
  ad_description : option p_tag;
  ad_price : option str;
  ad_location : option str;
  ad_img : option (option str)
}.

(** A parsed document: the [href] of every [<a href>] in document order
    and the cards matched by [div.col.s6.m4.l3]. *)
Record soup := {
  hrefs : list str;
  containers : list container
}.

Definition detect_last_page (sp : soup) : N :=
  fold_left
    (fun max_page href =>
       if contains (u "page=") href then
         let part := List.hd [] (split (u "&") (List.last (split (u "page=") href) [])) in
         match py_int (List.filter isdigit part) with
         | inr num => if max_page <? num then num else max_page
         | inl _ => max_page
         end
       else max_page)
    (hrefs sp) 1.

Definition parse_container (cont : container)
  : option str * option str * option str * option str :=
  let v1 :=
    match ad_description cont with
    | Some p =>
        match p_a p with
        | Some t => Some (strip t)
        | None => Some (strip (p_text p))
        end
    | None => None
    end in
  let v2 := option_map strip (ad_price cont) in
  let v3 := option_map strip (ad_location cont) in
  let v4 :=
    match ad_img cont with
    | Some (Some src) => Some src
    | _ => None
    end in
  (v1, v2, v3, v4).

End Builtins.

(** ** The database

    [raw_data] and [cleaned_data] are lists of rows in insertion order;
    the [id] column of a row is its position (nothing is ever deleted).
    A [TEXT] or [REAL] cell is [None] when it holds [NULL]. *)

Record raw_row := {
  raw_category : str;
  raw_source_url : str;
  raw_v1 : option str;
  raw_v2 : option str;
  raw_v3 : option str;
  raw_v4 : option str;
  raw_scraped_at : nat
}.

Record cleaned_row := {
  cl_category : option str;
  cl_name : option str;
  cl_price : option float;
  cl_address : option str;
  cl_image : option str;
  cl_cleaned_at : nat
}.

(** The state the module works on: the two tables, the clock read by
    [datetime.utcnow()] (a timestamp is the number of earlier readings)
    and the URLs reported through [st.warning]. *)
Record world := {
  raw_data : list raw_row;
  cleaned_data : list cleaned_row;
  clock : nat;
  warnings : list str
}.

(** SQL [col = ?]: never true when either side is [NULL]. *)
Definition sql_text_eq (col param : option str) : bool :=
  match col, param with
  | Some a, Some b => bool_decide (a = b)
  | _, _ => false
  end.

Definition sql_real_eq (col param : option float) : bool :=
  match col, param with
  | Some a, Some b => SFeqb a b
  | _, _ => false
  end.

(** ** State and exceptions *)

Definition M (A : Type) : Type := world -> (exn + A) * world.

#[export] Instance M_ret : MRet M := fun A x w => (inr x, w).

#[export] Instance M_bind : MBind M := fun A B f m w =>
  match m w with
  | (inr x, w') => f x w'
  | (inl e, w') => (inl e, w')
  end.

Definition raise {A} (e : exn) : M A := fun w => (inl e, w).

Definition get_world : M world := fun w => (inr w, w).

(** [datetime.utcnow().isoformat()] *)
Definition utcnow : M nat := fun w =>
  (inr (clock w),
   {| raw_data := raw_data w; cleaned_data := cleaned_data w;
      clock := S (clock w); warnings := warnings w |}).

(** [st.warning(...)] about a page that could not be loaded. *)
Definition warn (url : str) : M unit := fun w =>
  (inr tt,
   {| raw_data := raw_data w; cleaned_data := cleaned_data w;
      clock := clock w; warnings := warnings w ++ [url] |}).

Definition insert_raw (r : raw_row) : M unit := fun w =>
  (inr tt,
   {| raw_data := raw_data w ++ [r]; cleaned_data := cleaned_data w;
      clock := clock w; warnings := warnings w |}).

Definition insert_cleaned (r : cleaned_row) : M unit := fun w =>
  (inr tt,
   {| raw_data := raw_data w; cleaned_data := cleaned_data w ++ [r];
      clock := clock w; warnings := warnings w |}).

(** [SELECT 1 FROM raw_data WHERE category=? AND v1=? AND v2=? AND v3=?
    AND v4=?] followed by [fetchone()]. *)
Definition raw_match (cat : str) (a b c d : option str) (r : raw_row)
  : bool :=
  bool_decide (raw_category r = cat)
  && sql_text_eq (raw_v1 r) a && sql_text_eq (raw_v2 r) b
  && sql_text_eq (raw_v3 r) c && sql_text_eq (raw_v4 r) d.

Definition select_raw (cat : str) (a b c d : option str) : M bool :=
  w ← get_world; mret (existsb (raw_match cat a b c d) (raw_data w)).

(** [SELECT 1 FROM raw_data WHERE v1=? AND v2=? AND v3=? AND v4=?] *)
Definition upload_match (a b c d : option str) (r : raw_row) : bool :=
  sql_text_eq (raw_v1 r) a && sql_text_eq (raw_v2 r) b
  && sql_text_eq (raw_v3 r) c && sql_text_eq (raw_v4 r) d.

Definition select_uploaded (a b c d : option str) : M bool :=
  w ← get_world; mret (existsb (upload_match a b c d) (raw_data w)).

(** [SELECT 1 FROM cleaned_data WHERE category=? AND name=? AND price=?
    AND address=?] *)
Definition cleaned_match (cat name : option str) (price : option float)
  (address : option str) (r : cleaned_row) : bool :=
  sql_text_eq (cl_category r) cat && sql_text_eq (cl_name r) name
  && sql_real_eq (cl_price r) price && sql_text_eq (cl_address r) address.

Definition select_cleaned (cat name : option str) (price : option float)
  (address : option str) : M bool :=
  w ← get_world;
  mret (existsb (cleaned_match cat name price address) (cleaned_data w)).

(** ** Scraping *)

Definition CATEGORIES : gmap str str :=
  list_to_map
    [(u "chiens", u "https://sn.coinafrique.com/categorie/chiens");
     (u "moutons", u "https://sn.coinafrique.com/categorie/moutons");
     (u "poules-lapins-et-pigeons",
      u "https://sn.coinafrique.com/categorie/poules-lapins-et-pigeons");
     (u "autres-animaux",
      u "https://sn.coinafrique.com/categorie/autres-animaux")].

Section Scraper.
Context {U : UnicodeDB}.

(** The site: [fetch_soup url] is the parsed page, or [None] when the
    request raises (bad status, network error, timeout). *)
Variable fetch_soup : str -> option soup.

(** The body of [for cont in containers], [rows] being the list built
    so far. *)
Fixpoint scrape_containers (category_key url : str) (save_raw : bool)
  (conts : list container) (rows : list raw_row) : M (list raw_row) :=
  match conts with
  | [] => mret rows
  | cont :: conts' =>
      let '(v1, v2, v3, v4) := parse_container cont in
      t ← utcnow;
      let rows := rows ++ [Build_raw_row category_key url v1 v2 v3 v4 t] in
      _ ← (if save_raw then
             found ← select_raw category_key v1 v2 v3 v4;
             if found : bool then mret tt
             else
               t' ← utcnow;
               insert_raw (Build_raw_row category_key url v1 v2 v3 v4 t')
           else mret tt);
      scrape_containers category_key url save_raw conts' rows
  end.

Definition page_url (base : str) (page : nat) : str :=
  base ++ u "?page=" ++ of_nat page.

(** The body of [for page in range(1, last + 1)]. *)
Fixpoint scrape_pages (category_key base : str) (save_raw : bool)
  (pages : list nat) (rows : list raw_row) : M (list raw_row) :=
  match pages with
  | [] => mret rows
  | page :: pages' =>
      let url := page_url base page in
      match fetch_soup url with
      | None =>
          _ ← warn url;
          scrape_pages category_key base save_raw pages' rows
      | Some sp =>
          rows ← scrape_containers category_key url save_raw
                   (containers sp) rows;
          scrape_pages category_key base save_raw pages' rows
      end
  end.

(** The page count: the estimate from the first page, 1 when it cannot
    be fetched, capped by a positive [max_pages]. *)
Definition page_count (base : str) (max_pages : option Z) : Z :=
  let last :=
    match fetch_soup base with
    | Some first_soup => Z.of_N (detect_last_page first_soup)
    | None => 1%Z
    end in
  match max_pages with
  | Some mp => if (0 <? mp)%Z then Z.min last mp else last
  | None => last
  end.

(** [polite_delay] only feeds [time.sleep], which changes nothing of the
    state modelled here; every caller leaves it at its default. *)
Definition scrape_category (category_key : str) (max_pages : option Z)
  (save_raw : bool) : M (list raw_row) :=
  match CATEGORIES !! category_key with
  | None => raise (KeyError category_key)
  | Some base =>
      let last := page_count base max_pages in
      scrape_pages category_key base save_raw
        (seq 1 (Z.to_nat last)) []
  end.

End Scraper.

(** ** Cleaning pipeline *)

(** A row of the table handed to [clean_raw_dataframe], by what [r.get]
    returns.  [category] and [v4] go to SQL parameters untouched and are
    [None] or a [str], as in the tables [scrape_multiple] builds. *)
Record df_raw_row := {
  r_category : option str;
  r_v1 : pyval;
  r_v2 : pyval;
  r_v3 : pyval;
  r_v4 : option str
}.

(** A row of the returned table. *)
Record df_clean_row := {
  d_category : option str;
  d_name : option str;
  d_price : option float;
  d_address : option str;
  d_image : option str
}.

(** [DataFrame.drop_duplicates(subset=["name","price","address"])]: the
    first row of each key is kept; missing values compare equal. *)
Definition pd_str_eq (a b : option str) : bool := bool_decide (a = b).

Definition pd_float_eq (a b : option float) : bool :=
  match a, b with
  | None, None => true
  | Some x, Some y => SFeqb x y
  | _, _ => false
  end.

Definition same_key (a b : df_clean_row) : bool :=
  pd_str_eq (d_name a) (d_name b) && pd_float_eq (d_price a) (d_price b)
  && pd_str_eq (d_address a) (d_address b).

Fixpoint drop_duplicates_from (seen : list df_clean_row)
  (rows : list df_clean_row) : list df_clean_row :=
  match rows with
  | [] => []
  | r :: rows' =>
      if existsb (same_key r) seen
      then drop_duplicates_from seen rows'
      else r :: drop_duplicates_from (r :: seen) rows'
  end.

Definition drop_duplicates (rows : list df_clean_row) : list df_clean_row :=
  drop_duplicates_from [] rows.

Section Cleaning.
Context {U : UnicodeDB}.

(** [name = v1.strip() if isinstance(v1, str) else None] *)
Definition clean_name (v1 : pyval) : option str :=
  match v1 with
  | PStr s => Some (strip s)
  | _ => None
  end.

(** The derived record of one raw row. *)
Definition clean_row (r : df_raw_row) : df_clean_row :=
  {| d_category := r_category r;
     d_name := clean_name (r_v1 r);
     d_price := clean_price (r_v2 r);
     d_address := clean_address (r_v3 r);
     d_image := r_v4 r |}.

(** The body of [for _, r in df_raw.iterrows()]. *)
Fixpoint clean_rows (df_raw : list df_raw_row) (rows : list df_clean_row)
  : M (list df_clean_row) :=
  match df_raw with
  | [] => mret rows
  | r :: df_raw' =>
      let d := clean_row r in
      let rows := rows ++ [d] in
      found ← select_cleaned (d_category d) (d_name d) (d_price d)
                (d_address d);
      _ ← (if found : bool then mret tt
           else
             t ← utcnow;
             insert_cleaned
               (Build_cleaned_row (d_category d) (d_name d) (d_price d)
                  (d_address d) (d_image d) t));
      clean_rows df_raw' rows
  end.

Definition clean_raw_dataframe (df_raw : list df_raw_row)
  : M (list df_clean_row) :=
  rows ← clean_rows df_raw [];
  mret (drop_duplicates rows).

End Cleaning.

(** ** Import adapter *)

(** A row of the uploaded table: [row.get(col)] is the cell, [None] for
    a column the table does not have. *)
Definition row_get (row : gmap str pyval) (col : string) : pyval :=
  default PNone (row !! u col).

Definition upload_fields (row : gmap str pyval)
  : pyval * pyval * pyval * pyval :=
  let v1 := py_or (py_or (py_or (row_get row "name") (row_get row "Name"))
                     (row_get row "title")) (row_get row "details") in
  let v2 := py_or (py_or (row_get row "price") (row_get row "price_raw"))
              (row_get row "prix") in
  let v3 := py_or (py_or (row_get row "address") (row_get row "location"))
              (row_get row "address_raw") in
  let v4 := py_or (py_or (row_get row "image") (row_get row "image_src"))
              (row_get row "image_link") in
  (v1, v2, v3, v4).

(** The body of [for _, row in df_uploaded.iterrows()]. *)
Fixpoint save_rows (df_uploaded : list (gmap str pyval)) (saved : nat)
  : M nat :=
  match df_uploaded with
  | [] => mret saved
  | row :: df' =>
      let '(v1, v2, v3, v4) := upload_fields row in
      let a := Some (py_str v1) in
      let b := Some (py_str v2) in
      let c := Some (py_str v3) in
      let d := Some (py_str v4) in
      found ← select_uploaded a b c d;
      if found : bool then save_rows df' saved
      else
        t ← utcnow;
        _ ← insert_raw
              (Build_raw_row (u "uploaded") (u "uploaded_file") a b c d t);
        save_rows df' (S saved)
  end.

Definition save_uploaded_to_raw (df_uploaded : list (gmap str pyval))
  : M nat :=
  save_rows df_uploaded O.

(** ** Callers *)

Section Callers.
Context {U : UnicodeDB}.
Variable fetch_soup : str -> option soup.

(** The body of [for cat in categories], [dfs] being the tables
    gathered so far. *)
Fixpoint scrape_each (categories : list str) (max_pages_per_cat : option Z)
  (save_raw : bool) (dfs : list (list raw_row)) : M (list (list raw_row)) :=
  match categories with
  | [] => mret dfs
  | cat :: categories' =>
      df ← scrape_category fetch_soup cat max_pages_per_cat save_raw;
      scrape_each categories' max_pages_per_cat save_raw (dfs ++ [df])
  end.

(** [pd.concat(dfs, ignore_index=True)] when a table was gathered, an
    empty table with the same columns otherwise. *)
Definition scrape_multiple (categories : list str)
  (max_pages_per_cat : option Z) (save_raw : bool) : M (list raw_row) :=
  dfs ← scrape_each categories max_pages_per_cat save_raw [];
  mret (match dfs with
        | [] => []
        | _ :: _ => concat dfs
        end).

End Callers.

(** A row of the scraper's table as [clean_raw_dataframe] reads it with
    [r.get]: the category is a string, [v1] to [v4] are [None] or a
    string. *)
Definition df_row_of_raw (r : raw_row) : df_raw_row :=
  {| r_category := Some (raw_category r);
     r_v1 := of_opt (raw_v1 r);
     r_v2 := of_opt (raw_v2 r);
     r_v3 := of_opt (raw_v3 r);
     r_v4 := raw_v4 r |}.

(** [int(round((likert1 + likert2) / 2))] of the evaluation form, for
    integer marks: the half of an integer is exact in binary64, and
    [round] sends a half to the even neighbour. *)
Definition evaluation_rating (likert1 likert2 : Z) : Z :=
  let s := (likert1 + likert2)%Z in
  let q := (s / 2)%Z in
  if Z.even s then q else if Z.even q then q else (q + 1)%Z.

(** ** Notions used in the statements *)

(** The identity of a raw record for de-duplication. *)
Definition raw_identity (r : raw_row)
  : str * option str * option str * option str * option str :=
  (raw_category r, raw_v1 r, raw_v2 r, raw_v3 r, raw_v4 r).

(** A raw record without its timestamp. *)
Definition raw_fields (r : raw_row)
  : str * str * (option str * option str * option str * option str) :=
  (raw_category r, raw_source_url r,
   (raw_v1 r, raw_v2 r, raw_v3 r, raw_v4 r)).

(** The records one page of a category gives: one per card when the
    page loads, none when it does not. *)
Definition page_records (fetch_soup : str -> option soup)
  (category_key base : str) (page : nat)
  : list (str * str * (option str * option str * option str * option str)) :=
  match fetch_soup (page_url base page) with
  | Some sp =>
      List.map (fun cont => (category_key, page_url base page,
                             parse_container cont)) (containers sp)
  | None => []
  end.

(** The page number one link gives, when it has one that parses. *)
Definition link_page {U : UnicodeDB} (href : str) : option N :=
  if contains (u "page=") href then
    match py_int (List.filter isdigit
                    (List.hd [] (split (u "&")
                                   (List.last (split (u "page=") href) []))))
    with
    | inr num => Some num
    | inl _ => None
    end
  else None.

Definition page_numbers {U : UnicodeDB} (sp : soup) : list N :=
  omap link_page (hrefs sp).

(** Text below U+0100. *)
Definition latin1 (s : str) : Prop := Forall (fun c => c < 256) s.

(** [m] occurs in [s] as a substring. *)
Definition occurs_in (m s : str) : Prop := exists l1 l2, s = l1 ++ m ++ l2.

Definition nonblank (c : char) : bool := negb (isspace c).

(** No two whitespace characters in a row. *)
Fixpoint no_blank_run (s : str) : bool :=
  match s with
  | a :: s' =>
      match s' with
      | b :: _ => negb (isspace a && isspace b) && no_blank_run s'
      | [] => true
      end
  | [] => true
  end.

(** The four values the import adapter binds for a row: [str(v1)] to
    [str(v4)]. *)
Definition stringified (row : gmap str pyval)
  : option str * option str * option str * option str :=
  let '(v1, v2, v3, v4) := upload_fields row in
  (Some (py_str v1), Some (py_str v2), Some (py_str v3), Some (py_str v4)).

Definition raw_values (r : raw_row)
  : option str * option str * option str * option str :=
  (raw_v1 r, raw_v2 r, raw_v3 r, raw_v4 r).

(** The import adapter's [SELECT] finds a row with these four values. *)
Definition in_store
  (k : option str * option str * option str * option str)
  (store : list raw_row) : bool :=
  let '(a, b, c, d) := k in existsb (upload_match a b c d) store.

(** The identity of a cleaned record for de-duplication. *)
Definition cleaned_identity (r : cleaned_row)
  : option str * option str * option float * option str :=
  (cl_category r, cl_name r, cl_price r, cl_address r).

(** A card all four of whose fields are found. *)
Definition complete (cont : container) : Prop :=
  exists a b c d, parse_container cont = (Some a, Some b, Some c, Some d).

(** The scraper's [SELECT] finds the record of this card. *)
Definition stored (category_key : str) (cont : container)
  (store : list raw_row) : bool :=
  let '(a, b, c, d) := parse_container cont in
  existsb (raw_match category_key a b c d) store.

(** A derived record none of whose four key fields is missing. *)
Definition present (d : df_clean_row) : Prop :=
  exists c n p a,
    (d_category d, d_name d, d_price d, d_address d)
    = (Some c, Some n, Some p, Some a).

(** The cleaning pipeline's [SELECT] finds this derived record. *)
Definition cleaned_stored (d : df_clean_row) (store : list cleaned_row)
  : bool :=
  existsb (cleaned_match (d_category d) (d_name d) (d_price d)
             (d_address d)) store.

(** The URLs of the pages of a range that fail to load. *)
Definition failed_urls (fetch_soup : str -> option soup) (base : str)
  (pages : list nat) : list str :=
  List.map (page_url base)
    (List.filter (fun page =>
                    match fetch_soup (page_url base page) with
                    | Some _ => false
                    | None => true
                    end) pages).

(** The page range of a category. *)
Definition page_range {U : UnicodeDB} (fetch_soup : str -> option soup)
  (base : str) (max_pages : option Z) : list nat :=
  seq 1 (Z.to_nat (page_count fetch_soup base max_pages)).

(** The records a whole category gives. *)
Definition category_records {U : UnicodeDB} (fetch_soup : str -> option soup)
  (max_pages : option Z) (category_key : str)
  : list (str * str * (option str * option str * option str * option str)) :=
  match CATEGORIES !! category_key with
  | Some base =>
      flat_map (page_records fetch_soup category_key base)
        (page_range fetch_soup base max_pages)
  | None => []
  end.

(** A raw row none of whose four fields is [NULL]. *)
Definition full_row (r : raw_row) : bool :=
  match raw_v1 r, raw_v2 r, raw_v3 r, raw_v4 r with
  | Some _, Some _, Some _, Some _ => true
  | _, _, _, _ => false
  end.

(** No two rows without a [NULL] field share an identity. *)
Definition unique_full (store : list raw_row) : Prop :=
  NoDup (List.map raw_identity (List.filter full_row store)).

(** ** Sample inputs *)

Definition empty_world : world :=
  {| raw_data := []; cleaned_data := []; clock := O; warnings := [] |}.

Definition chiens_url : str := u "https://sn.coinafrique.com/categorie/chiens".

(** A card with every field, and one whose price and image are missing. *)
Definition full_card : container :=
  {| ad_description := Some {| p_text := u "Berger"; p_a := Some (u " Berger ") |};
     ad_price := Some (u "12 500 CFA");
     ad_location := Some (u "location_on Dakar");
     ad_img := Some (Some (u "/img/1.jpg")) |}.

Definition card_without_price : container :=
  {| ad_description := Some {| p_text := u "Chiot"; p_a := None |};
     ad_price := None;
     ad_location := Some (u "Thies");
     ad_img := Some None |}.

(** A site whose only page shows the same card twice. *)
Definition twin_site (url : str) : option soup :=
  if bool_decide (url = page_url chiens_url 1)
  then Some {| hrefs := []; containers := [full_card; full_card] |}
  else None.

(** A site whose only page shows one card without a price. *)
Definition gap_site (url : str) : option soup :=
  if bool_decide (url = page_url chiens_url 1)
  then Some {| hrefs := []; containers := [card_without_price] |}
  else None.

(** ["location_on  Dakar,  Senegal"] with its two e-acute, and the
    address it cleans to. *)
Definition dakar_raw : str :=
  u "location_on  Dakar,  S" ++ [233] ++ u "n" ++ [233] ++ u "gal".

Definition dakar_clean : str :=
  u "Dakar, S" ++ [233] ++ u "n" ++ [233] ++ u "gal".

(** A marker wrapped around a marker. *)
Definition nested_marker : str := u "location_location_onon".

(** A raw table of one row whose price is missing. *)
Definition priceless_table : list df_raw_row :=
  [{| r_category := Some (u "chiens"); r_v1 := PStr (u "Rex");
      r_v2 := PNone; r_v3 := PStr (u "Dakar"); r_v4 := None |}].

(** An uploaded row with [name] and [price] only. *)
Definition rex_row : gmap str pyval :=
  {[ u "name" := PStr (u "Rex"); u "price" := PStr (u "50000") ]}.

Definition rex_record (t : nat) : raw_row :=
  {| raw_category := u "uploaded"; raw_source_url := u "uploaded_file";
     raw_v1 := Some (u "Rex"); raw_v2 := Some (u "50000");
     raw_v3 := Some (u "None"); raw_v4 := Some (u "None");
     raw_scraped_at := t |}.

(** A first page with the links [?page=3], [?page=7] and [?page=2]. *)
Definition three_links : soup :=
  {| hrefs := [u "/categorie/chiens?page=3"; u "/categorie/chiens?page=7";
               u "/categorie/chiens?page=2"];
     containers := [] |}.

(** A site of three pages whose second page cannot be loaded. *)
Definition flaky_site (url : str) : option soup :=
  if bool_decide (url = chiens_url)
  then Some {| hrefs := [u "/categorie/chiens?page=3"; u "/aide"];
               containers := [full_card] |}
  else if bool_decide (url = page_url chiens_url 1)
  then Some {| hrefs := [u "/categorie/chiens?page=3"];
               containers := [full_card] |}
  else if bool_decide (url = page_url chiens_url 3)
  then Some {| hrefs := []; containers := [card_without_price] |}
  else None.

(** * Properties *)

(** ** Running the monad *)

Lemma run_bind {A B} (m : M A) (f : A -> M B) (w : world) :
  (m ≫= f) w =
  match m w with
  | (inr x, w') => f x w'
  | (inl e, w') => (inl e, w')
  end.
Proof. reflexivity. Qed.

Lemma run_ret {A} (x : A) (w : world) : (mret x : M A) w = (inr x, w).
Proof. reflexivity. Qed.

Ltac run :=
  repeat (rewrite ?run_bind, ?run_ret;
          unfold select_raw, select_uploaded, select_cleaned, get_world,
            utcnow, warn, insert_raw, insert_cleaned, raise;
          cbn [fst snd raw_data cleaned_data clock warnings]).

(** ** The cleaning pipeline *)

Section CleaningFacts.
Context {U : UnicodeDB}.

(** The loop only ever adds the derived records, in order, to [rows]:
    what is in the store decides the inserts, not the list. *)
Lemma clean_rows_value (df : list df_raw_row) :
  forall rows w, fst (clean_rows df rows w) = inr (rows ++ List.map clean_row df).
Proof.
  induction df as [|r df IH]; intros rows w; cbn [clean_rows List.map].
  - run. now rewrite app_nil_r.
  - run.
    destruct (existsb _ (cleaned_data w)); run; rewrite IH;
      now rewrite <- app_assoc.
Qed.

Lemma clean_raw_dataframe_value (df : list df_raw_row) (w : world) :
  fst (clean_raw_dataframe df w) = inr (drop_duplicates (List.map clean_row df)).
Proof.
  unfold clean_raw_dataframe. rewrite run_bind.
  pose proof (clean_rows_value df [] w) as H.
  destruct (clean_rows df [] w) as [[e|rows] w']; cbn in H; [discriminate|].
  injection H as ->. reflexivity.
Qed.

End CleaningFacts.

(** C10. Two runs of the cleaning pipeline on the same raw table return
    the same cleaned table whatever the store held before either run:
    the returned table is the de-duplicated list of the records derived
    from the rows, and the store only decides what is inserted. *)
Theorem clean_raw_dataframe_ignores_store {U : UnicodeDB}
  (df : list df_raw_row) (w1 w2 : world) :
  fst (clean_raw_dataframe df w1) = fst (clean_raw_dataframe df w2)
  /\ fst (clean_raw_dataframe df w1)
     = inr (drop_duplicates (List.map clean_row df)).
Proof.
  split; [|apply clean_raw_dataframe_value].
  now rewrite !clean_raw_dataframe_value.
Qed.

(** ** Trimming *)

Lemma lstrip_split (s : str) :
  exists l, s = l ++ lstrip s /\ forallb isspace l = true.
Proof.
  induction s as [|c s [l [Hs Hl]]]; cbn [lstrip].
  - now exists [].
  - destruct (isspace c) eqn:Hc.
    + exists (c :: l). cbn. rewrite Hc, Hl. split; [congruence|reflexivity].
    + now exists [].
Qed.

Lemma lstrip_head (s : str) (c : char) (t : str) :
  lstrip s = c :: t -> isspace c = false.
Proof.
  induction s as [|a s IH]; cbn [lstrip]; [discriminate|].
  destruct (isspace a) eqn:Ha; [exact IH|].
  intros [= -> _]. exact Ha.
Qed.

Lemma forallb_rev {A} (f : A -> bool) (l : list A) :
  forallb f (rev l) = forallb f l.
Proof.
  induction l as [|a l IH]; [reflexivity|].
  cbn. rewrite forallb_app, IH. cbn. rewrite andb_true_r. apply andb_comm.
Qed.

(** [strip] cuts a run of blanks off each end and leaves a string that
    neither starts nor ends with a blank. *)
Lemma strip_spec (s : str) :
  (exists l r, s = l ++ strip s ++ r
               /\ forallb isspace l = true /\ forallb isspace r = true)
  /\ (forall c t, strip s = c :: t -> isspace c = false)
  /\ (forall c t, strip s = t ++ [c] -> isspace c = false).
Proof.
  unfold strip, rstrip.
  destruct (lstrip_split s) as [l [Hs Hl]].
  destruct (lstrip_split (rev (lstrip s))) as [r [Hr Hrl]].
  assert (Ha : lstrip s = rev (lstrip (rev (lstrip s))) ++ rev r).
  { rewrite <- rev_app_distr, <- Hr. now rewrite rev_involutive. }
  split; [|split].
  - exists l, (rev r). rewrite <- Ha. split; [exact Hs|].
    split; [exact Hl|]. now rewrite forallb_rev.
  - intros c t Hc. rewrite Hc in Ha. cbn in Ha.
    exact (lstrip_head _ _ _ Ha).
  - intros c t Hc.
    apply (f_equal (@rev N)) in Hc.
    rewrite rev_involutive, rev_app_distr in Hc. cbn in Hc.
    exact (lstrip_head _ _ _ Hc).
Qed.

(** C2 (as the code has it). For every raw record, the cleaned name is
    [v1] with the blanks at both ends cut off whenever [v1] is a string,
    the empty string included (its name is the empty string, not
    absent); it is absent when [v1] is absent or is not a string. *)
Theorem clean_row_name {U : UnicodeDB} (r : df_raw_row) :
  match r_v1 r with
  | PStr s =>
      exists n l t,
        d_name (clean_row r) = Some n
        /\ s = l ++ n ++ t
        /\ forallb isspace l = true /\ forallb isspace t = true
        /\ (forall c n', n = c :: n' -> isspace c = false)
        /\ (forall c n', n = n' ++ [c] -> isspace c = false)
  | PNone | PObj _ _ => d_name (clean_row r) = None
  end.
Proof.
  destruct r as [cat v1 v2 v3 v4]; cbn [r_v1 clean_row d_name clean_name].
  destruct v1 as [|s|b repr]; cbn [clean_name]; try reflexivity.
  destruct (strip_spec s) as [[l [t [Hs [Hl Ht]]]] [Hhd Hlast]].
  exists (strip s), l, t. repeat split; assumption.
Qed.

(** C2, as stated, fails on the empty string: the claim makes the name
    of a record whose [v1] is [""] absent, the code makes it [""]. *)
Lemma clean_row_name_empty_string :
  ~ (forall r : df_raw_row,
       (forall s, r_v1 r = PStr s -> s <> [] ->
                  d_name (clean_row (U := latin1_db) r) = Some (strip s))
       /\ ((forall s, r_v1 r = PStr s -> s = []) ->
           d_name (clean_row (U := latin1_db) r) = None)).
Proof.
  intros H.
  destruct (H {| r_category := Some (u "chiens"); r_v1 := PStr [];
                 r_v2 := PNone; r_v3 := PNone; r_v4 := None |}) as [_ H0].
  cbn in H0. discriminate H0. intros s [= <-]. reflexivity.
Qed.

(** ** The scraping loop *)

Section ScraperFacts.
Context {U : UnicodeDB}.
Variable fetch_soup : str -> option soup.

(** The card loop never raises and appends one record per card,
    whatever the store holds and whether or not it saves. *)
Lemma scrape_containers_rows (category_key url : str) (save_raw : bool)
  (conts : list container) :
  forall rows w, exists rows' w',
    scrape_containers category_key url save_raw conts rows w = (inr rows', w')
    /\ List.map raw_fields rows'
       = List.map raw_fields rows
         ++ List.map (fun cont => (category_key, url, parse_container cont)) conts.
Proof.
  induction conts as [|cont conts IH]; intros rows w; cbn [scrape_containers List.map].
  - exists rows, w. run. now rewrite app_nil_r.
  - destruct (parse_container cont) as [[[v1 v2] v3] v4]. run.
    match goal with
    | |- context [scrape_containers _ _ _ conts ?r] => set (rows1 := r)
    end.
    assert (Hrows1 : List.map raw_fields rows1
                     = List.map raw_fields rows
                       ++ [(category_key, url, (v1, v2, v3, v4))]).
    { subst rows1. now rewrite map_app. }
    destruct save_raw; run;
      [destruct (existsb _ (raw_data w)); run|];
      match goal with
      | |- context [scrape_containers _ _ _ conts rows1 ?w1] =>
          destruct (IH rows1 w1) as [rows' [w' [-> Hf]]]
      end;
      exists rows', w'; (split; [reflexivity|]);
      rewrite Hf, Hrows1, <- app_assoc; reflexivity.
Qed.

(** The page loop never raises; a page that fails to load adds nothing
    and the loop goes on with the next one. *)
Lemma scrape_pages_rows (category_key base : str) (save_raw : bool)
  (pages : list nat) :
  forall rows w, exists rows' w',
    scrape_pages fetch_soup category_key base save_raw pages rows w
    = (inr rows', w')
    /\ List.map raw_fields rows'
       = List.map raw_fields rows
         ++ flat_map (page_records fetch_soup category_key base) pages.
Proof.
  induction pages as [|page pages IH]; intros rows w;
    cbn [scrape_pages flat_map].
  - exists rows, w. run. now rewrite app_nil_r.
  - unfold page_records at 1.
    destruct (fetch_soup (page_url base page)) as [sp|].
    + rewrite run_bind.
      destruct (scrape_containers_rows category_key (page_url base page)
                  save_raw (containers sp) rows w) as [rows1 [w1 [-> H1]]].
      destruct (IH rows1 w1) as [rows' [w' [-> H']]].
      exists rows', w'. split; [reflexivity|].
      now rewrite H', H1, <- app_assoc.
    + run.
      match goal with
      | |- context [scrape_pages _ _ _ _ pages rows ?w1] =>
          destruct (IH rows w1) as [rows' [w' [-> H']]]
      end.
      exists rows', w'. split; [reflexivity|exact H'].
Qed.

Lemma page_count_fallback (base : str) (max_pages : option Z) :
  fetch_soup base = None -> page_count fetch_soup base max_pages = 1%Z.
Proof.
  intros H. unfold page_count. rewrite H.
  destruct max_pages as [mp|]; [|reflexivity].
  destruct (0 <? mp)%Z eqn:Hmp; [|reflexivity].
  apply Z.ltb_lt in Hmp. lia.
Qed.

End ScraperFacts.

(** C3 (as the code has it). The table returned by a category scrape is
    not de-duplicated: it holds one record for every card of every page
    that loaded, in page order and card order, duplicates included,
    whatever the store holds and whether or not the run saves; only the
    insert into the store checks for an existing row. *)
Theorem scrape_category_rows {U : UnicodeDB} (fetch_soup : str -> option soup)
  (category_key base : str) (max_pages : option Z) (save_raw : bool)
  (w : world) :
  CATEGORIES !! category_key = Some base ->
  exists rows w',
    scrape_category fetch_soup category_key max_pages save_raw w
    = (inr rows, w')
    /\ List.map raw_fields rows
       = flat_map (page_records fetch_soup category_key base)
           (seq 1 (Z.to_nat (page_count fetch_soup base max_pages))).
Proof.
  intros Hk. unfold scrape_category. rewrite Hk.
  destruct (scrape_pages_rows fetch_soup category_key base save_raw
              (seq 1 (Z.to_nat (page_count fetch_soup base max_pages)))
              [] w) as [rows [w' [-> H]]].
  exists rows, w'. split; [reflexivity|exact H].
Qed.

Lemma scrape_category_rows_witness :
  CATEGORIES !! u "chiens" = Some chiens_url
  /\ exists rows w',
       scrape_category (U := latin1_db) twin_site (u "chiens") None true
         empty_world = (inr rows, w')
       /\ List.map raw_fields rows
          = flat_map (page_records twin_site (u "chiens") chiens_url)
              (seq 1 (Z.to_nat (page_count (U := latin1_db) twin_site
                                  chiens_url None))).
Proof.
  split; [reflexivity|].
  apply (scrape_category_rows (U := latin1_db) twin_site (u "chiens")
           chiens_url None true empty_world).
  reflexivity.
Defined.

(** C3, as stated, fails: on a page that shows the same card twice the
    returned table holds two records with the same identity. *)
Lemma scrape_category_keeps_duplicates :
  exists rows w',
    scrape_category (U := latin1_db) twin_site (u "chiens") None true
      empty_world = (inr rows, w')
    /\ ~ NoDup (List.map raw_identity rows).
Proof.
  eexists. eexists. split; [vm_compute; reflexivity|].
  cbn [List.map raw_identity raw_category raw_v1 raw_v2 raw_v3 raw_v4].
  intros H. apply NoDup_cons in H as [H _]. apply H. left.
Qed.

(** C9. A category scrape raises exactly when the key is not in
    [CATEGORIES], and then it raises the [KeyError] of that key.  For a
    known key it returns: when the first fetch fails the page count is
    1, and a page that fails to load gives no record while every other
    page of the range gives its own. *)
Theorem scrape_category_failure {U : UnicodeDB}
  (fetch_soup : str -> option soup) (category_key : str)
  (max_pages : option Z) (save_raw : bool) (w : world) :
  ((exists e, fst (scrape_category fetch_soup category_key max_pages
                     save_raw w) = inl e)
   <-> CATEGORIES !! category_key = None)
  /\ (forall e, fst (scrape_category fetch_soup category_key max_pages
                       save_raw w) = inl e -> e = KeyError category_key)
  /\ (forall base, CATEGORIES !! category_key = Some base ->
        (fetch_soup base = None ->
         page_count fetch_soup base max_pages = 1%Z)
        /\ (forall page, fetch_soup (page_url base page) = None ->
              page_records fetch_soup category_key base page = [])
        /\ exists rows w',
             scrape_category fetch_soup category_key max_pages save_raw w
             = (inr rows, w')
             /\ List.map raw_fields rows
                = flat_map (page_records fetch_soup category_key base)
                    (seq 1 (Z.to_nat (page_count fetch_soup base
                                        max_pages)))).
Proof.
  destruct (CATEGORIES !! category_key) as [base|] eqn:Hk.
  - assert (Hknown : exists rows w',
              scrape_category fetch_soup category_key max_pages save_raw w
              = (inr rows, w')
              /\ List.map raw_fields rows
                 = flat_map (page_records fetch_soup category_key base)
                     (seq 1 (Z.to_nat (page_count fetch_soup base
                                         max_pages)))).
    { unfold scrape_category. rewrite Hk.
      destruct (scrape_pages_rows fetch_soup category_key base save_raw
                  (seq 1 (Z.to_nat (page_count fetch_soup base max_pages)))
                  [] w) as [rows [w' [-> H]]].
      exists rows, w'. split; [reflexivity|exact H]. }
    destruct Hknown as [rows [w' [Hrun Hrows]]].
    split; [|split].
    + rewrite Hrun. split; [intros [e He]; discriminate He|discriminate].
    + rewrite Hrun. discriminate.
    + intros base' [= <-]. split; [|split].
      * apply page_count_fallback.
      * intros page Hp. unfold page_records. now rewrite Hp.
      * exists rows, w'. split; [exact Hrun|exact Hrows].
  - unfold scrape_category. rewrite Hk. cbn [raise fst].
    split; [|split].
    + split; [reflexivity|]. intros _. now exists (KeyError category_key).
    + intros e [= <-]. reflexivity.
    + discriminate.
Qed.

(** ** Splitting and replacing keep to the characters they are given *)

Section Characters.
Variable P : char -> Prop.

Lemma replace_from_Forall (old : str) (s : str) :
  forall skip, Forall P s -> Forall P (replace_from old [] skip s).
Proof.
  induction s as [|c s IH]; intros skip Hs; cbn [replace_from]; [constructor|].
  apply Forall_cons in Hs as [Hc Hs].
  destruct skip; [|now apply IH].
  destruct (startswith old (c :: s)); cbn [app]; [now apply IH|].
  constructor; [exact Hc|now apply IH].
Qed.

Lemma replace_Forall (old s : str) :
  Forall P s -> Forall P (replace old [] s).
Proof.
  intros Hs. destruct old as [|a old]; cbn [replace app].
  - induction Hs; cbn [flat_map app]; now constructor.
  - now apply replace_from_Forall.
Qed.

Lemma split_from_Forall (sep : str) (s : str) :
  forall skip cur, Forall P cur -> Forall P s ->
    Forall (Forall P) (split_from sep skip cur s).
Proof.
  induction s as [|c s IH]; intros skip cur Hcur Hs; cbn [split_from].
  - constructor; [|constructor]. apply Forall_forall. intros x Hx.
    rewrite Forall_forall in Hcur. apply Hcur.
    apply list_elem_of_In. apply in_rev. now apply list_elem_of_In.
  - apply Forall_cons in Hs as [Hc Hs].
    destruct skip; [|now apply IH].
    destruct (startswith sep (c :: s)).
    + constructor; [|apply IH; [constructor|exact Hs]].
      apply Forall_forall. intros x Hx.
      rewrite Forall_forall in Hcur. apply Hcur.
      apply list_elem_of_In. apply in_rev. now apply list_elem_of_In.
    + apply IH; [now constructor|exact Hs].
Qed.

Lemma split_Forall (sep s : str) :
  Forall P s -> Forall (Forall P) (split sep s).
Proof. intros Hs. apply split_from_Forall; [constructor|exact Hs]. Qed.

Lemma hd_Forall (l : list str) : Forall (Forall P) l -> Forall P (List.hd [] l).
Proof. intros [|x l' Hx Hl]; cbn; [constructor|exact Hx]. Qed.

Lemma last_Forall (l : list str) :
  Forall (Forall P) l -> Forall P (List.last l []).
Proof.
  induction 1 as [|x l' Hx Hl IH]; cbn [List.last]; [constructor|].
  destruct l'; [exact Hx|exact IH].
Qed.

Lemma filter_Forall (f : char -> bool) (s : str) :
  Forall P s -> Forall P (List.filter f s).
Proof.
  induction 1 as [|c s' Hc Hs IH]; cbn [List.filter]; [constructor|].
  destruct (f c); [now constructor|exact IH].
Qed.

End Characters.

(** ** Any conforming database agrees with [latin1_db] on Latin-1 text *)

Lemma latin1_u (s : string) : latin1 (u s).
Proof.
  unfold latin1, u. induction s as [|a s IH]; cbn; constructor.
  - apply N_ascii_bounded.
  - exact IH.
Qed.

#[export] Instance latin1_laws : UnicodeLaws latin1_db.
Proof.
  split.
  - reflexivity.
  - reflexivity.
  - intros c d. cbn. destruct (ascii_digit c); [reflexivity|discriminate].
Qed.

Section Agreement.
Context {U : UnicodeDB} {L : UnicodeLaws U}.

Lemma isdigit_agree (c : char) :
  c < 256 -> isdigit c = isdigit (UnicodeDB := latin1_db) c.
Proof. apply isdigit_latin1. Qed.

Lemma decimal_agree (c : char) :
  c < 256 -> decimal c = decimal (UnicodeDB := latin1_db) c.
Proof. apply decimal_latin1. Qed.

Lemma filter_agree (f g : char -> bool) (s : str) :
  (forall c, c < 256 -> f c = g c) -> latin1 s ->
  List.filter f s = List.filter g s.
Proof.
  intros Hfg. induction 1 as [|c s' Hc Hs IH]; cbn [List.filter]; [reflexivity|].
  now rewrite (Hfg c Hc), IH.
Qed.

Lemma digits_value_agree (s : str) :
  forall acc, latin1 s ->
    digits_value acc s = digits_value (U := latin1_db) acc s.
Proof.
  induction s as [|c s IH]; intros acc Hs; cbn [digits_value]; [reflexivity|].
  apply Forall_cons in Hs as [Hc Hs].
  rewrite (decimal_agree c Hc).
  destruct (decimal (UnicodeDB := latin1_db) c); [now apply IH|reflexivity].
Qed.

Lemma py_int_agree (s : str) :
  latin1 s -> py_int s = py_int (U := latin1_db) s.
Proof.
  intros Hs. unfold py_int. destruct s; [reflexivity|].
  now rewrite digits_value_agree.
Qed.

Lemma link_page_agree (href : str) :
  latin1 href -> link_page href = link_page (U := latin1_db) href.
Proof.
  intros Hh. unfold link_page.
  destruct (contains (u "page=") href); [|reflexivity].
  assert (Hpart : latin1 (List.hd [] (split (u "&")
                            (List.last (split (u "page=") href) [])))).
  { apply hd_Forall, split_Forall, last_Forall, split_Forall, Hh. }
  rewrite (filter_agree isdigit (isdigit (UnicodeDB := latin1_db)) _
             isdigit_agree Hpart).
  rewrite py_int_agree; [reflexivity|].
  now apply filter_Forall.
Qed.

End Agreement.

(** ** The pagination estimate *)

Lemma fold_max_ge_init (l : list N) :
  forall m, m <= fold_left N.max l m.
Proof.
  induction l as [|n l IH]; intros m; cbn [fold_left]; [lia|].
  specialize (IH (N.max m n)). lia.
Qed.

Lemma fold_max_ge_elem (l : list N) :
  forall m n, n ∈ l -> n <= fold_left N.max l m.
Proof.
  induction l as [|a l IH]; intros m n Hn; cbn [fold_left].
  - now apply elem_of_nil in Hn.
  - apply elem_of_cons in Hn as [->|Hn]; [|now apply IH].
    pose proof (fold_max_ge_init l (N.max m a)). lia.
Qed.

Lemma fold_max_attained (l : list N) :
  forall m, fold_left N.max l m = m \/ fold_left N.max l m ∈ l.
Proof.
  induction l as [|a l IH]; intros m; cbn [fold_left]; [now left|].
  destruct (IH (N.max m a)) as [H|H].
  - rewrite H. destruct (N.max_spec m a) as [[_ ->]|[_ ->]];
      [right; left|now left].
  - right. now right.
Qed.

Section Pagination.
Context {U : UnicodeDB}.

(** The loop keeps the running maximum of the numbers the links give. *)
Lemma detect_last_page_fold (sp : soup) :
  detect_last_page sp = fold_left N.max (page_numbers sp) 1.
Proof.
  unfold detect_last_page, page_numbers.
  generalize 1 as m. induction (hrefs sp) as [|href l IH]; intros m;
    cbn [fold_left omap list_omap]; [reflexivity|].
  rewrite IH. unfold link_page at 2.
  destruct (contains (u "page=") href); [|reflexivity].
  destruct (py_int _) as [e|num]; [reflexivity|].
  cbn [fold_left]. f_equal.
  destruct (m <? num) eqn:Hm; [apply N.ltb_lt in Hm|apply N.ltb_ge in Hm]; lia.
Qed.

Lemma no_page_links (l : list str) :
  Forall (fun href => contains (u "page=") href = false) l ->
  omap link_page l = [].
Proof.
  induction 1 as [|href l' Hh Hl IH]; [reflexivity|].
  cbn [omap list_omap]. unfold link_page at 1. now rewrite Hh.
Qed.

Lemma page_numbers_agree {L : UnicodeLaws U} (sp : soup) :
  Forall latin1 (hrefs sp) ->
  page_numbers sp = page_numbers (U := latin1_db) sp.
Proof.
  unfold page_numbers. induction 1 as [|href l Hh Hl IH]; [reflexivity|].
  cbn [omap list_omap]. now rewrite IH, (link_page_agree href Hh).
Qed.

End Pagination.

(** C7. The pagination estimate is an integer of at least 1, at least
    every page number that a link with [page=] gives once the characters
    that are not digits are dropped, and it is 1 or one of these
    numbers: it is their maximum, with 1 as the floor.  A link whose
    number does not parse gives no number and changes nothing.  Without
    any link carrying [page=] the estimate is 1, and the links
    [?page=3], [?page=7], [?page=2] give 7. *)
Theorem detect_last_page_spec {U : UnicodeDB} (L : UnicodeLaws U) (sp : soup) :
  1 <= detect_last_page sp
  /\ (forall num, num ∈ page_numbers sp -> num <= detect_last_page sp)
  /\ (detect_last_page sp = 1 \/ detect_last_page sp ∈ page_numbers sp)
  /\ (forall href, href ∈ hrefs sp -> link_page href = None ->
        detect_last_page sp
        = detect_last_page
            {| hrefs := List.filter (fun h => negb (bool_decide (h = href)))
                          (hrefs sp);
               containers := containers sp |})
  /\ (Forall (fun href => contains (u "page=") href = false) (hrefs sp) ->
      detect_last_page sp = 1)
  /\ detect_last_page three_links = 7.
Proof.
  rewrite !detect_last_page_fold.
  split; [apply fold_max_ge_init|].
  split; [intros num; apply fold_max_ge_elem|].
  split; [apply fold_max_attained|].
  split; [|split].
  - intros href _ Hnone. rewrite detect_last_page_fold. f_equal.
    unfold page_numbers. cbn [hrefs].
    induction (hrefs sp) as [|h l IH]; [reflexivity|].
    cbn [omap list_omap List.filter].
    destruct (bool_decide_reflect (h = href)) as [->|Hne]; cbn [negb].
    + now rewrite Hnone.
    + cbn [omap list_omap]. now rewrite IH.
  - intros Hno. unfold page_numbers. now rewrite no_page_links.
  - rewrite page_numbers_agree; [vm_compute; reflexivity|].
    repeat constructor; apply latin1_u.
Qed.

Lemma detect_last_page_spec_witness :
  UnicodeLaws latin1_db
  /\ detect_last_page (U := latin1_db) three_links = 7.
Proof.
  split; [exact latin1_laws|].
  apply (detect_last_page_spec latin1_laws three_links).
Defined.

(** ** Occurrences, replacing and splitting *)

Lemma startswith_app (p s : str) :
  startswith p s = true -> s = p ++ drop (length p) s.
Proof.
  revert s. induction p as [|a p IH]; intros s H; [reflexivity|].
  destruct s as [|c s]; [discriminate|]. cbn in H.
  apply andb_true_iff in H as [Hc Hp]. apply N.eqb_eq in Hc as ->.
  cbn. f_equal. now apply IH.
Qed.

Lemma startswith_refl_app (p s : str) : startswith p (p ++ s) = true.
Proof.
  induction p as [|a p IH]; [reflexivity|]. cbn. now rewrite N.eqb_refl.
Qed.

Lemma filter_rejected (f : char -> bool) (l : str) :
  forallb (fun c => negb (f c)) l = true -> List.filter f l = [].
Proof.
  induction l as [|b l IH]; [reflexivity|]. cbn.
  intros H. apply andb_true_iff in H as [Hb Hl].
  apply negb_true_iff in Hb. rewrite Hb. now apply IH.
Qed.

(** Deleting occurrences of a string that [f] rejects throughout does
    not change what [f] keeps. *)
Lemma filter_replace_from (f : char -> bool) (a : char) (old : str) :
  forallb (fun c => negb (f c)) (a :: old) = true ->
  forall s skip,
    List.filter f (replace_from (a :: old) [] skip s)
    = List.filter f (drop skip s).
Proof.
  intros Hold. induction s as [|c s IH]; intros skip; cbn [replace_from].
  - now destruct skip.
  - destruct skip as [|k]; [|apply IH].
    destruct (startswith (a :: old) (c :: s)) eqn:Hst;
      cbn [app drop length Nat.pred].
    + rewrite IH. cbn [startswith] in Hst.
      apply andb_true_iff in Hst as [Hc Hst]. apply N.eqb_eq in Hc as <-.
      apply startswith_app in Hst. rewrite Hst at 2.
      cbn [forallb] in Hold. apply andb_true_iff in Hold as [Ha Hold].
      apply negb_true_iff in Ha. cbn [List.filter]. rewrite Ha.
      now rewrite List.filter_app, (filter_rejected f old Hold).
    + cbn [List.filter]. now rewrite IH.
Qed.

Lemma filter_replace (f : char -> bool) (old s : str) :
  old <> [] -> forallb (fun c => negb (f c)) old = true ->
  List.filter f (replace old [] s) = List.filter f s.
Proof.
  intros Hne Hold. destruct old as [|a old]; [contradiction|].
  cbn [replace]. now rewrite filter_replace_from.
Qed.

(** [sep.join(s.split(sep)) == s] *)
Lemma join_cons (sep w : str) (l : list str) :
  join sep (w :: l)
  = w ++ match l with [] => [] | _ :: _ => sep ++ join sep l end.
Proof. destruct l; cbn [join]; [now rewrite app_nil_r|reflexivity]. Qed.

Lemma split_from_nonempty (sep : str) (s : str) :
  forall skip cur, split_from sep skip cur s <> [].
Proof.
  induction s as [|c s IH]; intros skip cur; cbn [split_from]; [discriminate|].
  destruct skip; [|apply IH].
  destruct (startswith sep (c :: s)); [discriminate|apply IH].
Qed.

Lemma join_split_from (a : char) (sep : str) (s : str) :
  forall skip cur,
    join (a :: sep) (split_from (a :: sep) skip cur s)
    = rev cur ++ drop skip s.
Proof.
  induction s as [|c s IH]; intros skip cur; cbn [split_from].
  - cbn [join]. destruct skip; cbn [drop]; now rewrite app_nil_r.
  - destruct skip as [|k]; [|apply IH].
    destruct (startswith (a :: sep) (c :: s)) eqn:Hst;
      cbn [drop length Nat.pred].
    + rewrite join_cons.
      pose proof (split_from_nonempty (a :: sep) s (length sep) []) as Hne.
      destruct (split_from (a :: sep) (length sep) [] s) eqn:Hsp;
        [contradiction|].
      rewrite <- Hsp, IH. cbn [rev app].
      cbn [startswith] in Hst.
      apply andb_true_iff in Hst as [Hc Hst]. apply N.eqb_eq in Hc as <-.
      apply startswith_app in Hst. rewrite Hst at 2. reflexivity.
    + rewrite IH. cbn [rev drop]. now rewrite <- app_assoc.
Qed.

Lemma join_split (sep s : str) : sep <> [] -> join sep (split sep s) = s.
Proof.
  intros Hne. destruct sep as [|a sep]; [contradiction|].
  unfold split. now rewrite join_split_from.
Qed.

(** ** Price cleaning *)

Lemma forallb_agree (f g : char -> bool) (s : str) :
  (forall c, c < 256 -> f c = g c) -> latin1 s -> forallb f s = forallb g s.
Proof.
  intros Hfg. induction 1 as [|c s' Hc Hs IH]; [reflexivity|].
  cbn [forallb]. now rewrite (Hfg c Hc), IH.
Qed.

Lemma digits_value_decimal {U : UnicodeDB} (s : str) :
  forall acc m, digits_value acc s = Some m ->
    Forall (fun c => is_Some (decimal c)) s.
Proof.
  induction s as [|c s IH]; intros acc m H; [constructor|].
  cbn [digits_value] in H. destruct (decimal c) as [d|] eqn:Hd; [|discriminate].
  constructor; [now rewrite Hd|exact (IH _ _ H)].
Qed.

Lemma py_int_inr {U : UnicodeDB} (s : str) (m : N) :
  py_int s = inr m -> s <> [] /\ digits_value 0 s = Some m.
Proof.
  unfold py_int. destruct s as [|c s]; [discriminate|].
  destruct (digits_value 0 (c :: s)) as [n|]; [|discriminate].
  intros [= ->]. split; [discriminate|reflexivity].
Qed.

(** What [float] accepts: digits, or digits around one point, with at
    least one digit in all. *)
Lemma py_float_inr {U : UnicodeDB} (d : str) (x : float) :
  py_float d = inr x ->
  exists ip fp m,
    (d = ip /\ fp = [] \/ d = ip ++ 46 :: fp)
    /\ py_int (ip ++ fp) = inr m
    /\ x = float_of_decimal m (length fp).
Proof.
  unfold py_float. pose proof (join_split [46] d) as Hj.
  destruct (split [46] d) as [|ip [|fp [|q l]]]; [discriminate| | |discriminate].
  - destruct (py_int ip) as [e|m] eqn:Hm; [discriminate|].
    intros [= <-]. exists ip, [], m. rewrite app_nil_r.
    split; [left; split; [|reflexivity]|split; [exact Hm|reflexivity]].
    symmetry. now apply Hj.
  - destruct (py_int (ip ++ fp)) as [e|m] eqn:Hm; [discriminate|].
    intros [= <-]. exists ip, fp, m.
    split; [right|split; [exact Hm|reflexivity]].
    symmetry. now apply Hj.
Qed.

Section Price.
Context {U : UnicodeDB} {L : UnicodeLaws U}.

Lemma price_char_agree (c : char) :
  c < 256 -> price_char c = price_char (U := latin1_db) c.
Proof. intros Hc. unfold price_char. now rewrite isdigit_agree. Qed.

Lemma rejected_agree (tok : str) :
  latin1 tok ->
  forallb (fun c => negb (price_char (U := latin1_db) c)) tok = true ->
  forallb (fun c => negb (price_char c)) tok = true.
Proof.
  intros Htok <-. apply forallb_agree; [|exact Htok].
  intros c Hc. now rewrite price_char_agree.
Qed.

(** The tokens and the comma hold no digit and no point, so [digits] is
    simply what [price_char] keeps of the input. *)
Lemma price_digits_filter (s : str) :
  price_digits s = List.filter price_char s.
Proof.
  unfold price_digits, price_tokens. cbn [fold_left].
  repeat (rewrite filter_replace;
          [|discriminate
           |apply rejected_agree;
            [first [apply latin1_u|repeat constructor]
            |vm_compute; reflexivity]]).
  reflexivity.
Qed.

Lemma py_float_agree (d : str) :
  latin1 d -> py_float d = py_float (U := latin1_db) d.
Proof.
  intros Hd. unfold py_float.
  pose proof (split_Forall _ [46] d Hd) as Hsp.
  destruct (split [46] d) as [|ip [|fp [|q l]]]; try reflexivity.
  - apply Forall_cons in Hsp as [Hip _]. now rewrite py_int_agree.
  - apply Forall_cons in Hsp as [Hip Hsp].
    apply Forall_cons in Hsp as [Hfp _].
    rewrite py_int_agree; [reflexivity|]. now apply Forall_app.
Qed.

End Price.

Lemma clean_price_agree {U : UnicodeDB} {L : UnicodeLaws U} (v : pyval) :
  latin1 (py_str v) -> clean_price v = clean_price (U := latin1_db) v.
Proof.
  intros Hv. unfold clean_price. destruct v as [|s|b r]; [reflexivity| |].
  all: cbn [py_str] in *.
  all: rewrite (price_digits_filter (U := U)), (price_digits_filter (U := latin1_db)).
  all: rewrite (filter_agree price_char (price_char (U := latin1_db)) _
                  price_char_agree Hv).
  all: destruct (List.filter _ _) eqn:Hf; [reflexivity|].
  all: rewrite py_float_agree; [reflexivity|].
  all: rewrite <- Hf; now apply filter_Forall.
Qed.

(** C5. [digits] is what the filter on digits and points keeps of the
    input: the currency tokens, the blanks and the commas hold neither.
    The price is absent for an absent input, for an input without any
    digit or point and for a residue [float] rejects, and only then;
    nothing is raised and no default stands in.  A price that is present
    is the double of the residue read as a decimal: digits with at most
    one point, at least one digit.  So ["12 500 CFA"] gives [12500.0],
    ["gratuit"] and [None] give no price. *)
Theorem clean_price_spec {U : UnicodeDB} (L : UnicodeLaws U)
  (raw_price : pyval) :
  let digits := price_digits (py_str raw_price) in
  digits = List.filter price_char (py_str raw_price)
  /\ (clean_price raw_price = None
      <-> raw_price = PNone \/ digits = []
          \/ py_float digits = inl ValueError)
  /\ (forall x, clean_price raw_price = Some x ->
        exists ip fp m,
          (digits = ip /\ fp = [] \/ digits = ip ++ 46 :: fp)
          /\ ip ++ fp <> []
          /\ Forall (fun c => is_Some (decimal c)) (ip ++ fp)
          /\ digits_value 0 (ip ++ fp) = Some m
          /\ x = float_of_decimal m (length fp))
  /\ clean_price PNone = None
  /\ clean_price (PStr (u "gratuit")) = None
  /\ clean_price (PStr (u "12 500 CFA")) = Some (float_of_decimal 12500 0)
  /\ float_of_decimal 12500 0 = S754_finite false 6871947673600000 (-39).
Proof.
  intros digits.
  assert (Herr : forall d e, py_float d = inl e -> e = ValueError).
  { intros d e. unfold py_float.
    destruct (split [46] d) as [|ip [|fp [|q l]]]; try (now intros [= <-]).
    - unfold py_int. destruct ip; [now intros [= <-]|].
      destruct (digits_value 0 _); [discriminate|now intros [= <-]].
    - unfold py_int. destruct (ip ++ fp); [now intros [= <-]|].
      destruct (digits_value 0 _); [discriminate|now intros [= <-]]. }
  split; [apply price_digits_filter|].
  split; [|split].
  - unfold clean_price. fold digits.
    destruct raw_price as [|s|b r]; [split; [now left|reflexivity]| |].
    all: destruct digits as [|c d] eqn:Hd;
      [split; [now right; left|reflexivity]|].
    all: destruct (py_float (c :: d)) as [e|x] eqn:Hf.
    all: split; try discriminate; try (intros _; right; right;
      now rewrite (Herr _ _ Hf)).
    all: intros [H|[H|H]]; first [discriminate H|reflexivity].
  - intros x Hx. unfold clean_price in Hx. fold digits in Hx.
    assert (Hf : py_float digits = inr x).
    { destruct raw_price; [discriminate| |];
        (destruct digits; [discriminate|]);
        (destruct (py_float _) as [e|y]; [discriminate|]);
        now injection Hx as ->. }
    destruct (py_float_inr digits x Hf) as [ip [fp [m [Hshape [Hm Hval]]]]].
    apply py_int_inr in Hm as [Hne Hm].
    exists ip, fp, m. repeat split; try assumption.
    exact (digits_value_decimal _ _ _ Hm).
  - split; [reflexivity|].
    split; [|split].
    + rewrite clean_price_agree by apply latin1_u. vm_compute. reflexivity.
    + rewrite clean_price_agree by apply latin1_u. vm_compute. reflexivity.
    + vm_compute. reflexivity.
Qed.

Lemma clean_price_spec_witness :
  UnicodeLaws latin1_db
  /\ clean_price (U := latin1_db) (PStr (u "12 500 CFA"))
     = Some (float_of_decimal 12500 0).
Proof.
  split; [exact latin1_laws|].
  apply (clean_price_spec latin1_laws PNone).
Defined.

(** ** Words *)

Lemma contains_occurs (m s : str) : contains m s = true <-> occurs_in m s.
Proof.
  split.
  - induction s as [|c s IH]; cbn [contains]; intros H.
    + rewrite orb_false_r in H. apply startswith_app in H.
      exists [], (drop (length m) []). exact H.
    + apply orb_true_iff in H as [H|H].
      * apply startswith_app in H. now exists [], (drop (length m) (c :: s)).
      * destruct (IH H) as [l1 [l2 ->]]. now exists (c :: l1), l2.
  - intros [l1 [l2 ->]]. induction l1 as [|c l1 IH]; cbn [app].
    + destruct (m ++ l2) eqn:E; cbn [contains]; rewrite <- E;
        now rewrite startswith_refl_app.
    + cbn [contains]. rewrite IH. apply orb_true_r.
Qed.

Lemma occurs_in_trans (m s t : str) :
  occurs_in m s -> occurs_in s t -> occurs_in m t.
Proof.
  intros [a [b ->]] [c [d ->]]. exists (c ++ a), (b ++ d).
  now rewrite <- !app_assoc.
Qed.

(** A string without blanks that occurs in [w ++ " " ++ rest] occurs in
    [w] or in [rest]. *)
Lemma occurs_in_spaced (m w rest : str) :
  32 ∉ m -> occurs_in m (w ++ 32 :: rest) ->
  occurs_in m w \/ occurs_in m rest.
Proof.
  intros Hm [l1 [l2 H]]. symmetry in H.
  apply app_eq_app in H as [l [[-> H]|[-> H]]].
  - destruct l as [|c l]; cbn [app] in H.
    + destruct m as [|c m]; [left; now exists [], w|].
      injection H as <- _. exfalso. apply Hm. left.
    + injection H as <- ->. right. now exists l, l2.
  - apply app_eq_app in H as [k [[-> H]|[-> ->]]].
    + destruct k as [|c k]; cbn [app] in H.
      * left. exists l1, []. now rewrite !app_nil_r.
      * injection H as <- _. exfalso. apply Hm.
        apply elem_of_app. right. left.
    + left. now exists l1, k.
Qed.

Lemma occurs_in_join (m : str) (ws : list str) :
  m <> [] -> 32 ∉ m -> occurs_in m (join [32] ws) ->
  exists w, w ∈ ws /\ occurs_in m w.
Proof.
  intros Hne Hm. induction ws as [|w ws IH].
  - cbn [join]. intros [l1 [l2 H]].
    destruct l1; [destruct m|]; [contradiction| |]; discriminate H.
  - rewrite join_cons. destruct ws as [|w' ws'].
    + rewrite app_nil_r. intros H. exists w. split; [left|exact H].
    + cbn [app]. intros H. apply occurs_in_spaced in H; [|exact Hm].
      destruct H as [H|H].
      * exists w. split; [left|exact H].
      * destruct (IH H) as [x [Hx Hox]]. exists x. split; [now right|exact Hox].
Qed.

(** The words [split_ws] returns are not empty, hold no blank and occur
    in the string. *)
Lemma words_from_spec (s : str) :
  forall cur, forallb nonblank cur = true ->
    Forall (fun w => w <> [] /\ forallb nonblank w = true
                     /\ occurs_in w (rev cur ++ s))
      (words_from cur s).
Proof.
  induction s as [|c s IH]; intros cur Hcur; cbn [words_from].
  - destruct cur as [|a cur]; [constructor|].
    constructor; [|constructor]. split; [|split].
    + intros H. apply (f_equal (@length N)) in H.
      rewrite length_rev in H. discriminate H.
    + now rewrite forallb_rev.
    + exists [], []. now rewrite !app_nil_r.
  - destruct (isspace c) eqn:Hc.
    + assert (Hrest : Forall (fun w => w <> [] /\ forallb nonblank w = true
                                /\ occurs_in w (rev cur ++ c :: s))
                        (words_from [] s)).
      { eapply Forall_impl; [apply (IH [] eq_refl)|].
        intros w [Hw1 [Hw2 [l1 [l2 Hw3]]]]. split; [exact Hw1|].
        split; [exact Hw2|]. cbn [rev app] in Hw3.
        exists (rev cur ++ c :: l1), l2. rewrite Hw3.
        now rewrite <- app_assoc. }
      destruct cur as [|a cur]; [exact Hrest|].
      constructor; [|exact Hrest]. split; [|split].
      * intros H. apply (f_equal (@length N)) in H.
        rewrite length_rev in H. discriminate H.
      * now rewrite forallb_rev.
      * now exists [], (c :: s).
    + eapply Forall_impl; [apply (IH (c :: cur))|].
      * cbn [forallb]. unfold nonblank at 1. now rewrite Hc.
      * intros w [Hw1 [Hw2 Hw3]]. split; [exact Hw1|]. split; [exact Hw2|].
        cbn [rev] in Hw3. now rewrite <- app_assoc in Hw3.
Qed.

(** Splitting into words keeps the characters that are not blank. *)
Lemma concat_words_from (s : str) :
  forall cur, forallb nonblank cur = true ->
    concat (words_from cur s) = rev cur ++ List.filter nonblank s.
Proof.
  induction s as [|c s IH]; intros cur Hcur; cbn [words_from List.filter].
  - destruct cur; [reflexivity|]. cbn [concat]. now rewrite app_nil_r.
  - assert (Hn : nonblank c = negb (isspace c)) by reflexivity.
    rewrite Hn. destruct (isspace c) eqn:Hc; cbn [negb].
    + destruct cur as [|a cur]; cbn [concat]; now rewrite (IH [] eq_refl).
    + rewrite (IH (c :: cur)).
      * cbn [rev]. now rewrite <- app_assoc.
      * cbn [forallb]. unfold nonblank at 1. now rewrite Hc.
Qed.

Lemma nonblank_false (c : char) : nonblank c = true -> isspace c = false.
Proof. unfold nonblank. now destruct (isspace c). Qed.

Lemma no_blank_run_app (w t : str) :
  forallb nonblank w = true -> no_blank_run t = true ->
  no_blank_run (w ++ t) = true.
Proof.
  intros Hw Ht. induction w as [|a w IH]; [exact Ht|].
  cbn [forallb] in Hw. apply andb_true_iff in Hw as [Ha Hw].
  apply nonblank_false in Ha. specialize (IH Hw).
  cbn [app no_blank_run]. destruct (w ++ t); [reflexivity|].
  now rewrite Ha, IH.
Qed.

Lemma blank_free_last (w r' : str) (c : char) :
  forallb nonblank w = true -> w = r' ++ [c] -> isspace c = false.
Proof.
  intros Hw ->. rewrite forallb_app in Hw.
  apply andb_true_iff in Hw as [_ Hc]. cbn in Hc.
  rewrite andb_true_r in Hc. now apply nonblank_false.
Qed.

(** Words joined by single spaces: no run of blanks, no blank but the
    separating spaces, none at either end. *)
Lemma join_words (ws : list str) :
  Forall (fun w => w <> [] /\ forallb nonblank w = true) ws ->
  no_blank_run (join [32] ws) = true
  /\ Forall (fun c => isspace c = true -> c = 32) (join [32] ws)
  /\ (forall c r', join [32] ws = c :: r' -> isspace c = false)
  /\ (forall c r', join [32] ws = r' ++ [c] -> isspace c = false)
  /\ List.filter nonblank (join [32] ws) = concat ws
  /\ (ws <> [] -> join [32] ws <> []).
Proof.
  induction 1 as [|w ws [Hne Hw] Hws (Hrun & Hsp & Hhd & Hlast & Hfil & Hnil)].
  - cbn [join concat List.filter no_blank_run].
    split; [reflexivity|]. split; [constructor|].
    split; [intros c r' H; discriminate H|].
    split; [intros c r' H; now destruct r'|].
    split; [reflexivity|]. intros H. now contradiction H.
  - rewrite join_cons. cbn [concat].
    assert (Hwsp : Forall (fun c => isspace c = true -> c = 32) w).
    { clear -Hw. induction w as [|a w IH]; [constructor|].
      cbn [forallb] in Hw. apply andb_true_iff in Hw as [Ha Hw].
      apply nonblank_false in Ha.
      constructor; [intros H; congruence|now apply IH]. }
    destruct ws as [|w' ws'].
    + rewrite !app_nil_r. repeat split.
      * rewrite <- (app_nil_r w). now apply no_blank_run_app.
      * exact Hwsp.
      * intros c r' ->. cbn [forallb] in Hw.
        apply andb_true_iff in Hw as [Ha _]. now apply nonblank_false.
      * intros c r'. now apply blank_free_last.
      * clear -Hw. induction w as [|a w IH]; [reflexivity|].
        cbn [forallb] in Hw. apply andb_true_iff in Hw as [Ha Hw].
        cbn [List.filter]. rewrite Ha. now rewrite IH.
      * intros _. exact Hne.
    + set (J := join [32] (w' :: ws')) in *.
      assert (HJ : J <> []) by (apply Hnil; discriminate).
      destruct J as [|j J'] eqn:EJ; [contradiction|].
      assert (Hj : isspace j = false) by (apply (Hhd j J'); reflexivity).
      repeat split.
      * apply no_blank_run_app; [exact Hw|].
        change (no_blank_run ([32] ++ j :: J'))
          with (negb (isspace 32 && isspace j) && no_blank_run (j :: J')).
        rewrite Hj, Hrun. now rewrite andb_false_r.
      * apply Forall_app. split; [exact Hwsp|].
        cbn [app]. constructor; [reflexivity|exact Hsp].
      * destruct w as [|a w0]; [contradiction|]. intros c r' [= <- _].
        cbn [forallb] in Hw. apply andb_true_iff in Hw as [Ha _].
        now apply nonblank_false.
      * intros c r' Heq.
        destruct (exists_last HJ) as [J0 [cj HJ0]].
        rewrite HJ0 in Heq.
        change (w ++ [32] ++ J0 ++ [cj]) with (w ++ ([32] ++ J0) ++ [cj]) in Heq.
        rewrite app_assoc in Heq. apply app_inj_tail in Heq as [_ <-].
        exact (Hlast cj J0 HJ0).
      * rewrite List.filter_app.
        change (List.filter nonblank ([32] ++ j :: J'))
          with (List.filter nonblank (j :: J')).
        rewrite Hfil.
        f_equal. clear -Hw. induction w as [|a w IH]; [reflexivity|].
        cbn [forallb] in Hw. apply andb_true_iff in Hw as [Ha Hw].
        cbn [List.filter]. rewrite Ha. now rewrite IH.
      * intros _ H. apply app_eq_nil in H as [_ H]. discriminate H.
Qed.

Lemma filter_blanks (l : str) :
  forallb isspace l = true -> List.filter nonblank l = [].
Proof.
  induction l as [|c l IH]; [reflexivity|]. cbn [forallb List.filter].
  intros H. apply andb_true_iff in H as [Hc Hl].
  unfold nonblank at 1. rewrite Hc. now apply IH.
Qed.

(** Trimming keeps the characters that are not blank and returns a
    piece of the string. *)
Lemma strip_nonblank (t : str) :
  List.filter nonblank (strip t) = List.filter nonblank t
  /\ occurs_in (strip t) t.
Proof.
  destruct (strip_spec t) as [[l [r [Ht [Hl Hr]]]] _].
  split; [|now exists l, r].
  rewrite Ht at 2. rewrite !List.filter_app.
  now rewrite (filter_blanks l Hl), (filter_blanks r Hr), app_nil_r.
Qed.

(** ** Address cleaning *)

Lemma clean_address_words (raw_addr : pyval) :
  raw_addr <> PNone ->
  let t := replace marker [] (py_str raw_addr) in
  let r := join [32] (split_ws (strip t)) in
  clean_address raw_addr = match r with [] => None | _ :: _ => Some r end
  /\ no_blank_run r = true
  /\ Forall (fun c => isspace c = true -> c = 32) r
  /\ (forall c r', r = c :: r' -> isspace c = false)
  /\ (forall c r', r = r' ++ [c] -> isspace c = false)
  /\ List.filter nonblank r = List.filter nonblank t
  /\ (contains marker t = false -> contains marker r = false).
Proof.
  intros Hv t r.
  pose proof (words_from_spec (strip t) [] eq_refl) as Hws.
  fold (split_ws (strip t)) in Hws. cbn [rev app] in Hws.
  assert (Hws' : Forall (fun w => w <> [] /\ forallb nonblank w = true)
                   (split_ws (strip t))).
  { eapply Forall_impl; [exact Hws|]. intros w (H1 & H2 & _). now split. }
  destruct (join_words _ Hws') as (Hrun & Hsp & Hhd & Hlast & Hfil & _).
  destruct (strip_nonblank t) as [Hst Hocc].
  split; [now destruct raw_addr|].
  repeat split; try assumption.
  - fold r in Hfil. rewrite Hfil. unfold split_ws.
    now rewrite (concat_words_from (strip t) [] eq_refl).
  - intros Hfree. destruct (contains marker r) eqn:Hr; [|reflexivity].
    apply contains_occurs in Hr.
    apply occurs_in_join in Hr as [w [Hw Hmw]].
    + rewrite Forall_forall in Hws. destruct (Hws w Hw) as (_ & _ & Hwt).
      assert (Hmt : occurs_in marker t).
      { eapply occurs_in_trans; [exact Hmw|].
        eapply occurs_in_trans; [exact Hwt|exact Hocc]. }
      apply contains_occurs in Hmt. congruence.
    + discriminate.
    + apply (bool_decide_unpack _). vm_compute. reflexivity.
Qed.

(** C6 (as the code has it). The address is absent for an absent input
    and when nothing but blanks is left once the marker occurrences are
    deleted, and only then.  A present address is not empty, holds no
    run of blanks and no blank other than single spaces, none at either
    end, and the same non-blank characters, in order, as the input
    without its marker occurrences.  The occurrences are deleted in one
    pass from the left: the address is free of the marker whenever what
    that pass leaves is.  ["location_on  Dakar,  Senegal"] (with its
    accents) gives ["Dakar, Senegal"]. *)
Theorem clean_address_spec (raw_addr : pyval) :
  let t := replace marker [] (py_str raw_addr) in
  (clean_address raw_addr = None
   <-> raw_addr = PNone \/ List.filter nonblank t = [])
  /\ (forall r, clean_address raw_addr = Some r ->
        r <> []
        /\ no_blank_run r = true
        /\ Forall (fun c => isspace c = true -> c = 32) r
        /\ (forall c r', r = c :: r' -> isspace c = false)
        /\ (forall c r', r = r' ++ [c] -> isspace c = false)
        /\ List.filter nonblank r = List.filter nonblank t
        /\ (contains marker t = false -> contains marker r = false))
  /\ clean_address PNone = None
  /\ clean_address (PStr dakar_raw) = Some dakar_clean.
Proof.
  intros t.
  split; [|split; [|split; [reflexivity|vm_compute; reflexivity]]].
  - assert (Hcase : raw_addr = PNone \/ raw_addr <> PNone)
      by (destruct raw_addr; [now left|now right|now right]).
    destruct Hcase as [->|Hv]; [split; [now left|reflexivity]|].
    destruct (clean_address_words raw_addr Hv)
      as (Hdef & _ & _ & Hhd & _ & Hfil & _).
    fold t in Hdef, Hhd, Hfil. rewrite Hdef.
    destruct (join [32] (split_ws (strip t))) as [|c r'] eqn:Hr.
    + split; [intros _; right; now rewrite <- Hfil|reflexivity].
    + split; [discriminate|]. intros [H|H]; [contradiction|].
      rewrite H in Hfil. cbn [List.filter] in Hfil.
      unfold nonblank at 1 in Hfil.
      rewrite (Hhd c r' eq_refl) in Hfil. discriminate Hfil.
  - intros r Hr.
    assert (Hv : raw_addr <> PNone) by (intros ->; discriminate Hr).
    destruct (clean_address_words raw_addr Hv)
      as (Hdef & Hrun & Hsp & Hhd & Hlast & Hfil & Hfree).
    fold t in Hdef, Hrun, Hsp, Hhd, Hlast, Hfil, Hfree.
    rewrite Hdef in Hr.
    destruct (join [32] (split_ws (strip t))) as [|c r'] eqn:Hj;
      [discriminate|].
    injection Hr as <-. repeat split; try assumption. discriminate.
Qed.

(** C6, as stated, fails on a marker wrapped around a marker: deleting
    the inner occurrence leaves the marker in the address. *)
Lemma clean_address_nested_marker :
  exists r, clean_address (PStr nested_marker) = Some r
            /\ contains marker r = true.
Proof. exists marker. split; vm_compute; reflexivity. Qed.

(** ** The import adapter *)

Lemma sql_text_eq_refl (a : str) : sql_text_eq (Some a) (Some a) = true.
Proof. cbn. now apply bool_decide_eq_true. Qed.

Lemma in_store_app (k : option str * option str * option str * option str)
  (l l' : list raw_row) :
  in_store k l = true -> in_store k (l ++ l') = true.
Proof.
  destruct k as [[[a b] c] d]. cbn [in_store]. rewrite existsb_app.
  intros ->. reflexivity.
Qed.

Lemma in_store_own (r : raw_row) (a b c d : str) (l : list raw_row) :
  raw_values r = (Some a, Some b, Some c, Some d) ->
  in_store (raw_values r) (l ++ [r]) = true.
Proof.
  intros H. rewrite H. cbn [in_store]. rewrite existsb_app. cbn [existsb].
  unfold upload_match. injection H as -> -> -> ->.
  rewrite !sql_text_eq_refl. cbn. apply orb_true_r.
Qed.

(** What the loop does to the store and to the count. *)
Lemma save_rows_spec (df : list (gmap str pyval)) :
  forall saved w, exists new w',
    save_rows df saved w = (inr (saved + length new)%nat, w')
    /\ raw_data w' = raw_data w ++ new
    /\ cleaned_data w' = cleaned_data w
    /\ Forall (fun r => raw_category r = u "uploaded"
                        /\ raw_source_url r = u "uploaded_file"
                        /\ exists row, row ∈ df
                                       /\ raw_values r = stringified row) new
    /\ (forall l1 r l2, new = l1 ++ r :: l2 ->
          in_store (raw_values r) (raw_data w ++ l1) = false)
    /\ (forall row, row ∈ df -> in_store (stringified row) (raw_data w') = true).
Proof.
  induction df as [|row df IH]; intros saved w; cbn [save_rows].
  - exists [], w. run. rewrite Nat.add_0_r, app_nil_r.
    repeat split; try constructor.
    + intros l1 r l2 H. now destruct l1.
    + intros row H. now apply elem_of_nil in H.
  - pose proof (eq_refl (stringified row)) as Hk. unfold stringified at 2 in Hk.
    destruct (upload_fields row) as [[[v1 v2] v3] v4]. run.
    destruct (existsb _ (raw_data w)) eqn:Hfound.
    + destruct (IH saved w) as (new & w' & -> & Hraw & Hcl & Hnew & Hfresh & Hall).
      exists new, w'. repeat split; try assumption.
      * eapply Forall_impl; [exact Hnew|].
        intros r (H1 & H2 & row' & Hin & Hv). repeat split; try assumption.
        exists row'. split; [now right|exact Hv].
      * intros row' Hin. apply elem_of_cons in Hin as [->|Hin];
          [|now apply Hall].
        rewrite Hraw. apply in_store_app. rewrite Hk. exact Hfound.
    + run.
      set (r := Build_raw_row _ _ _ _ _ _ _).
      match goal with
      | |- context [save_rows df (S saved) ?w1] =>
          destruct (IH (S saved) w1)
            as (new & w' & -> & Hraw & Hcl & Hnew & Hfresh & Hall)
      end.
      cbn [raw_data cleaned_data] in Hraw, Hcl, Hfresh.
      exists (r :: new), w'. repeat split.
      * cbn [length]. f_equal. f_equal. lia.
      * rewrite Hraw. now rewrite <- app_assoc.
      * exact Hcl.
      * constructor.
        -- repeat split. exists row. split; [left|]. now rewrite Hk.
        -- eapply Forall_impl; [exact Hnew|].
           intros r' (H1 & H2 & row' & Hin & Hv). repeat split; try assumption.
           exists row'. split; [now right|exact Hv].
      * intros l1 r' l2 H. destruct l1 as [|x l1]; cbn [app] in H.
        -- injection H as <- _. rewrite app_nil_r. exact Hfound.
        -- injection H as <- ->.
           specialize (Hfresh l1 r' l2 eq_refl).
           now rewrite <- app_assoc in Hfresh.
      * intros row' Hin. apply elem_of_cons in Hin as [->|Hin];
          [|now apply Hall].
        rewrite Hraw. apply in_store_app. rewrite Hk.
        change (Some (py_str v1), Some (py_str v2), Some (py_str v3),
                Some (py_str v4)) with (raw_values r).
        now apply (in_store_own r (py_str v1) (py_str v2) (py_str v3)
                     (py_str v4)).
Qed.

Lemma rex_fields :
  upload_fields rex_row = (PStr (u "Rex"), PStr (u "50000"), PNone, PNone).
Proof. vm_compute. reflexivity. Qed.

(** C4. For every uploaded table, the rows the import adapter adds to
    the raw store carry the four mapped values as strings ([str] of a
    missing value being the text [None]), under the category
    [uploaded]; a row is added only when the store, as it stands at that
    moment, holds no row with the same four values, and every uploaded
    row is in the store afterwards; the number returned is the number of
    rows added.  A row with name [Rex], price [50000] and no address or
    image column gives [v3] and [v4] equal to ["None"]; imported into a
    store without such a row it is inserted, and skipped when imported
    again. *)
Theorem save_uploaded_to_raw_spec (df : list (gmap str pyval)) (w : world) :
  (exists new w',
      save_uploaded_to_raw df w = (inr (length new), w')
      /\ raw_data w' = raw_data w ++ new
      /\ cleaned_data w' = cleaned_data w
      /\ Forall (fun r => raw_category r = u "uploaded"
                          /\ raw_source_url r = u "uploaded_file"
                          /\ exists row, row ∈ df
                                         /\ raw_values r = stringified row) new
      /\ (forall l1 r l2, new = l1 ++ r :: l2 ->
            in_store (raw_values r) (raw_data w ++ l1) = false)
      /\ (forall row, row ∈ df ->
            in_store (stringified row) (raw_data w') = true))
  /\ stringified rex_row
     = (Some (u "Rex"), Some (u "50000"), Some (u "None"), Some (u "None"))
  /\ (in_store (stringified rex_row) (raw_data w) = false ->
      exists w1,
        save_uploaded_to_raw [rex_row] w = (inr 1%nat, w1)
        /\ raw_data w1 = raw_data w ++ [rex_record (clock w)]
        /\ save_uploaded_to_raw [rex_row] w1 = (inr 0%nat, w1)).
Proof.
  split; [|split].
  - unfold save_uploaded_to_raw.
    destruct (save_rows_spec df 0%nat w) as (new & w' & H & Hrest).
    exists new, w'. split; [exact H|exact Hrest].
  - unfold stringified. now rewrite rex_fields.
  - unfold stringified. rewrite rex_fields. cbn [py_str in_store].
    intros Hnew. unfold save_uploaded_to_raw. cbn [save_rows].
    rewrite rex_fields. cbn [py_str]. run. rewrite Hnew. run.
    eexists. split; [reflexivity|]. cbn [raw_data].
    split; [reflexivity|].
    run. rewrite existsb_app. cbn [existsb].
    unfold upload_match at 2.
    cbn [raw_v1 raw_v2 raw_v3 raw_v4].
    rewrite !sql_text_eq_refl. cbn [andb orb]. rewrite orb_true_r.
    reflexivity.
Qed.

Lemma save_uploaded_to_raw_spec_witness :
  in_store (stringified rex_row) (raw_data empty_world) = false
  /\ exists w1,
       save_uploaded_to_raw [rex_row] empty_world = (inr 1%nat, w1)
       /\ raw_data w1 = raw_data empty_world ++ [rex_record (clock empty_world)]
       /\ save_uploaded_to_raw [rex_row] w1 = (inr 0%nat, w1).
Proof.
  split; [vm_compute; reflexivity|].
  apply (save_uploaded_to_raw_spec [rex_row] empty_world).
  vm_compute. reflexivity.
Defined.

(** ** Running twice *)

(** C1, at a page whose one card has no price: the first run over an
    empty store inserts the record, and the second run over the same
    content inserts it again, because [v2=?] bound to [None] is never
    true in SQL.  The store ends with two rows of the same identity,
    where the claim has the second run insert nothing. *)
Theorem scrape_category_twice_missing_price :
  exists rows1 w1 rows2 w2,
    scrape_category (U := latin1_db) gap_site (u "chiens") None true
      empty_world = (inr rows1, w1)
    /\ scrape_category (U := latin1_db) gap_site (u "chiens") None true w1
       = (inr rows2, w2)
    /\ length (raw_data w1) = 1%nat
    /\ length (raw_data w2) = 2%nat
    /\ List.map raw_identity (raw_data w2)
       = [(u "chiens", Some (u "Chiot"), None, Some (u "Thies"), None);
          (u "chiens", Some (u "Chiot"), None, Some (u "Thies"), None)].
Proof.
  do 4 eexists.
  split; [vm_compute; reflexivity|].
  split; [vm_compute; reflexivity|].
  repeat split.
Qed.

(** C8, at a raw table whose one row has no price: the first cleaning
    over an empty store inserts the derived record, and cleaning the
    same table again inserts it again, because [price=?] bound to
    [None] is never true in SQL.  The cleaned table goes from one row to
    two of the same identity, where the claim has the count stay. *)
Theorem clean_twice_missing_price :
  exists t1 w1 t2 w2,
    clean_raw_dataframe (U := latin1_db) priceless_table empty_world
    = (inr t1, w1)
    /\ clean_raw_dataframe (U := latin1_db) priceless_table w1 = (inr t2, w2)
    /\ length (cleaned_data w1) = 1%nat
    /\ length (cleaned_data w2) = 2%nat
    /\ List.map cleaned_identity (cleaned_data w2)
       = [(Some (u "chiens"), Some (u "Rex"), None, Some (u "Dakar"));
          (Some (u "chiens"), Some (u "Rex"), None, Some (u "Dakar"))].
Proof.
  do 4 eexists.
  split; [vm_compute; reflexivity|].
  split; [vm_compute; reflexivity|].
  repeat split.
Qed.

(** When no field is missing the check does its work: what one run
    stored, the next run finds. *)

Section ScrapeTwice.
Context {U : UnicodeDB}.
Variable fetch_soup : str -> option soup.

Lemma stored_app (category_key : str) (cont : container)
  (l l' : list raw_row) :
  stored category_key cont l = true ->
  stored category_key cont (l ++ l') = true.
Proof.
  unfold stored. destruct (parse_container cont) as [[[a b] c] d].
  rewrite existsb_app. intros ->. reflexivity.
Qed.

Lemma scrape_containers_saved (category_key url : str)
  (conts : list container) :
  forall rows w rows' w',
    scrape_containers category_key url true conts rows w = (inr rows', w') ->
    (exists new, raw_data w' = raw_data w ++ new)
    /\ forall cont, cont ∈ conts -> complete cont ->
         stored category_key cont (raw_data w') = true.
Proof.
  induction conts as [|cont conts IH]; intros rows w rows' w';
    cbn [scrape_containers].
  - run. intros [= _ <-]. split; [exists []; now rewrite app_nil_r|].
    intros cont H. now apply elem_of_nil in H.
  - destruct (parse_container cont) as [[[v1 v2] v3] v4] eqn:Hp. run.
    destruct (existsb _ (raw_data w)) eqn:Hfound; run; intros Hrun;
      apply IH in Hrun as [[new Hnew] Hall]; cbn [raw_data] in Hnew.
    + split; [now exists new|].
      intros c Hc Hcomp. apply elem_of_cons in Hc as [->|Hc];
        [|now apply Hall].
      rewrite Hnew. apply stored_app. unfold stored. now rewrite Hp.
    + split; [eexists; rewrite Hnew, <- app_assoc; reflexivity|].
      intros c Hc Hcomp. apply elem_of_cons in Hc as [->|Hc];
        [|now apply Hall].
      rewrite Hnew. apply stored_app. unfold stored. rewrite Hp.
      destruct Hcomp as (a & b & c' & d & Hc'). rewrite Hp in Hc'.
      injection Hc' as -> -> -> ->.
      rewrite existsb_app. cbn [existsb]. unfold raw_match at 2.
      cbn [raw_category raw_v1 raw_v2 raw_v3 raw_v4].
      rewrite !sql_text_eq_refl, bool_decide_eq_true_2 by reflexivity.
      cbn [andb orb]. apply orb_true_r.
Qed.

Lemma scrape_containers_noop (category_key url : str)
  (conts : list container) :
  forall rows w rows' w',
    (forall cont, cont ∈ conts ->
       stored category_key cont (raw_data w) = true) ->
    scrape_containers category_key url true conts rows w = (inr rows', w') ->
    raw_data w' = raw_data w.
Proof.
  induction conts as [|cont conts IH]; intros rows w rows' w' Hall;
    cbn [scrape_containers].
  - run. now intros [= _ <-].
  - pose proof (Hall cont ltac:(left)) as Hc. unfold stored in Hc.
    destruct (parse_container cont) as [[[v1 v2] v3] v4]. run.
    rewrite Hc. run. intros Hrun. apply IH in Hrun; [exact Hrun|].
    intros c Hin. cbn [raw_data]. apply Hall. now right.
Qed.

Lemma scrape_pages_saved (category_key base : str) (pages : list nat) :
  forall rows w rows' w',
    scrape_pages fetch_soup category_key base true pages rows w
    = (inr rows', w') ->
    (exists new, raw_data w' = raw_data w ++ new)
    /\ forall page sp cont,
         page ∈ pages -> fetch_soup (page_url base page) = Some sp ->
         cont ∈ containers sp -> complete cont ->
         stored category_key cont (raw_data w') = true.
Proof.
  induction pages as [|page pages IH]; intros rows w rows' w';
    cbn [scrape_pages].
  - run. intros [= _ <-]. split; [exists []; now rewrite app_nil_r|].
    intros page sp cont H. now apply elem_of_nil in H.
  - destruct (fetch_soup (page_url base page)) as [sp|] eqn:Hf.
    + rewrite run_bind.
      destruct (scrape_containers category_key (page_url base page) true
                  (containers sp) rows w) as [[e|rows1] w1] eqn:Hc;
        [discriminate|].
      apply scrape_containers_saved in Hc as [[new1 Hnew1] Hall1].
      intros Hrun. apply IH in Hrun as [[new Hnew] Hall].
      split; [eexists; rewrite Hnew, Hnew1, <- app_assoc; reflexivity|].
      intros p sp' cont Hp Hfp Hcont Hcomp.
      apply elem_of_cons in Hp as [->|Hp]; [|now apply (Hall p sp')].
      rewrite Hf in Hfp. injection Hfp as <-.
      rewrite Hnew. apply stored_app. now apply Hall1.
    + run. intros Hrun. apply IH in Hrun as [[new Hnew] Hall].
      cbn [raw_data] in Hnew. split; [now exists new|].
      intros p sp' cont Hp Hfp Hcont Hcomp.
      apply elem_of_cons in Hp as [->|Hp]; [congruence|].
      now apply (Hall p sp').
Qed.

Lemma scrape_pages_noop (category_key base : str) (pages : list nat) :
  forall rows w rows' w',
    (forall page sp cont,
       page ∈ pages -> fetch_soup (page_url base page) = Some sp ->
       cont ∈ containers sp ->
       stored category_key cont (raw_data w) = true) ->
    scrape_pages fetch_soup category_key base true pages rows w
    = (inr rows', w') ->
    raw_data w' = raw_data w.
Proof.
  induction pages as [|page pages IH]; intros rows w rows' w' Hall;
    cbn [scrape_pages].
  - run. now intros [= _ <-].
  - destruct (fetch_soup (page_url base page)) as [sp|] eqn:Hf.
    + rewrite run_bind.
      destruct (scrape_containers category_key (page_url base page) true
                  (containers sp) rows w) as [[e|rows1] w1] eqn:Hc;
        [discriminate|].
      apply scrape_containers_noop in Hc;
        [|intros cont Hin; apply (Hall page sp); [left|exact Hf|exact Hin]].
      intros Hrun. apply IH in Hrun; [congruence|].
      intros p sp' cont Hp Hfp Hcont. rewrite Hc.
      apply (Hall p sp'); [now right|exact Hfp|exact Hcont].
    + run. intros Hrun. apply IH in Hrun; [exact Hrun|].
      intros p sp' cont Hp Hfp Hcont. cbn [raw_data].
      apply (Hall p sp'); [now right|exact Hfp|exact Hcont].
Qed.

(** X19. Over content whose cards all have their four fields, a second
    run with the same content inserts nothing. *)
Lemma scrape_category_twice_complete (category_key base : str)
  (max_pages : option Z) (w w1 w2 : world) (rows1 rows2 : list raw_row) :
  CATEGORIES !! category_key = Some base ->
  (forall page sp cont,
     fetch_soup (page_url base page) = Some sp -> cont ∈ containers sp ->
     complete cont) ->
  scrape_category fetch_soup category_key max_pages true w = (inr rows1, w1) ->
  scrape_category fetch_soup category_key max_pages true w1 = (inr rows2, w2) ->
  raw_data w2 = raw_data w1.
Proof.
  intros Hk Hcomp. unfold scrape_category. rewrite Hk. intros H1 H2.
  apply scrape_pages_saved in H1 as [_ Hall].
  apply scrape_pages_noop in H2; [exact H2|].
  intros page sp cont Hp Hf Hc.
  apply (Hall page sp cont Hp Hf Hc). now apply (Hcomp page sp).
Qed.

End ScrapeTwice.

(** ** Prices are numbers

    The double of a decimal is never NaN, so it is equal to itself for
    SQLite and pandas alike. *)

Lemma shr_1_nonneg (mrs : shr_record) :
  (0 <= shr_m mrs)%Z -> (0 <= shr_m (shr_1 mrs))%Z.
Proof.
  destruct mrs as [m r s]. cbn [shr_m shr_1].
  destruct m as [|[p|p|]|p]; cbn [shr_m]; lia.
Qed.

Lemma iter_pos_nonneg (p : positive) :
  forall mrs, (0 <= shr_m mrs)%Z -> (0 <= shr_m (SpecFloat.iter_pos shr_1 p mrs))%Z.
Proof.
  induction p as [p IH|p IH|]; intros mrs H; cbn [SpecFloat.iter_pos].
  - apply IH, IH, shr_1_nonneg, H.
  - apply IH, IH, H.
  - apply shr_1_nonneg, H.
Qed.

Lemma shr_fexp_nonneg (prec emax m e : Z) (l : location) :
  (0 <= m)%Z -> (0 <= shr_m (fst (shr_fexp prec emax m e l)))%Z.
Proof.
  intros Hm. unfold shr_fexp, shr.
  assert (H0 : (0 <= shr_m (shr_record_of_loc m l))%Z)
    by (destruct l as [|[]]; exact Hm).
  destruct (_ - e)%Z; cbn [fst]; try exact H0.
  now apply iter_pos_nonneg.
Qed.

Lemma binary_round_aux_number (prec emax : Z) (sx : bool) (mx ex : Z)
  (lx : location) :
  (0 <= mx)%Z -> binary_round_aux prec emax sx mx ex lx <> S754_nan.
Proof.
  intros Hm. unfold binary_round_aux.
  pose proof (shr_fexp_nonneg prec emax mx ex lx Hm) as H1.
  destruct (shr_fexp prec emax mx ex lx) as [mrs' e']. cbn [fst] in H1.
  set (m1 := round_nearest_even (shr_m mrs') (loc_of_shr_record mrs')).
  assert (Hm1 : (0 <= m1)%Z).
  { subst m1. unfold round_nearest_even.
    destruct (loc_of_shr_record mrs') as [|[]]; try lia.
    destruct (Z.even (shr_m mrs')); lia. }
  pose proof (shr_fexp_nonneg prec emax m1 e' loc_Exact Hm1) as H2.
  destruct (shr_fexp prec emax m1 e' loc_Exact) as [mrs'' e''].
  cbn [fst] in H2.
  destruct (shr_m mrs'') as [|p|p]; [discriminate| |lia].
  destruct (e'' <=? emax - prec)%Z; discriminate.
Qed.

Lemma float_of_decimal_number (m : N) (k : nat) :
  float_of_decimal m k <> S754_nan.
Proof.
  unfold float_of_decimal. destruct m as [|p]; [discriminate|].
  unfold SFdiv, SFdiv_core_binary.
  set (q := Nat.iter k (Pos.mul 10) 1%positive).
  set (m' := match _ with Z0 => Z.pos p | Z.pos _ => _ | Z.neg _ => 0%Z end).
  assert (Hm' : (0 <= m')%Z).
  { subst m'. destruct (_ - _ - _)%Z; try lia.
    apply Z.shiftl_nonneg. lia. }
  pose proof (Z.div_pos m' (Z.pos q) Hm' ltac:(lia)) as Hq.
  unfold Z.div in Hq. destruct (Z.div_eucl m' (Z.pos q)) as [d r].
  cbn [fst] in Hq. now apply binary_round_aux_number.
Qed.

Lemma SFeqb_refl (x : float) : x <> S754_nan -> SFeqb x x = true.
Proof.
  intros Hx. unfold SFeqb, SFcompare.
  destruct x as [s|s| |s m e]; try reflexivity; try contradiction.
  - now destruct s.
  - rewrite Z.compare_refl, Pos.compare_cont_refl. now destruct s.
Qed.

Lemma clean_price_number {U : UnicodeDB} (v : pyval) (x : float) :
  clean_price v = Some x -> SFeqb x x = true.
Proof.
  intros H. apply SFeqb_refl. unfold clean_price in H.
  assert (Hf : exists d, py_float d = inr x).
  { destruct v; [discriminate| |];
      (destruct (price_digits _) as [|c d]; [discriminate|]);
      (destruct (py_float (c :: d)) as [e|y] eqn:Hy; [discriminate|]);
      injection H as <-; now exists (c :: d). }
  destruct Hf as [d Hf].
  apply py_float_inr in Hf as (ip & fp & m & _ & _ & ->).
  apply float_of_decimal_number.
Qed.

Section CleanTwice.
Context {U : UnicodeDB}.

Lemma cleaned_stored_app (d : df_clean_row) (l l' : list cleaned_row) :
  cleaned_stored d l = true -> cleaned_stored d (l ++ l') = true.
Proof. unfold cleaned_stored. rewrite existsb_app. now intros ->. Qed.

Lemma clean_rows_saved (df : list df_raw_row) :
  forall rows w rows' w',
    clean_rows df rows w = (inr rows', w') ->
    (exists new, cleaned_data w' = cleaned_data w ++ new)
    /\ forall r, r ∈ df -> present (clean_row r) ->
         cleaned_stored (clean_row r) (cleaned_data w') = true.
Proof.
  induction df as [|r df IH]; intros rows w rows' w'; cbn [clean_rows].
  - run. intros [= _ <-]. split; [exists []; now rewrite app_nil_r|].
    intros r H. now apply elem_of_nil in H.
  - run. destruct (existsb _ (cleaned_data w)) eqn:Hfound; run;
      intros Hrun; apply IH in Hrun as [[new Hnew] Hall];
      cbn [cleaned_data] in Hnew.
    + split; [now exists new|].
      intros r' Hr' Hp. apply elem_of_cons in Hr' as [->|Hr'];
        [|now apply Hall].
      rewrite Hnew. now apply cleaned_stored_app.
    + split; [eexists; rewrite Hnew, <- app_assoc; reflexivity|].
      intros r' Hr' Hp. apply elem_of_cons in Hr' as [->|Hr'];
        [|now apply Hall].
      rewrite Hnew. apply cleaned_stored_app.
      unfold cleaned_stored. rewrite existsb_app. cbn [existsb].
      unfold cleaned_match at 2.
      cbn [cl_category cl_name cl_price cl_address].
      destruct Hp as (c & n & p & a & Hp).
      assert (Hcat : d_category (clean_row r) = Some c) by congruence.
      assert (Hname : d_name (clean_row r) = Some n) by congruence.
      assert (Hprice : d_price (clean_row r) = Some p) by congruence.
      assert (Haddr : d_address (clean_row r) = Some a) by congruence.
      rewrite Hcat, Hname, Hprice, Haddr.
      rewrite !sql_text_eq_refl. cbn [sql_real_eq].
      cbn [clean_row d_price] in Hprice.
      rewrite (clean_price_number _ _ Hprice).
      cbn [andb orb]. apply orb_true_r.
Qed.

Lemma clean_rows_noop (df : list df_raw_row) :
  forall rows w rows' w',
    (forall r, r ∈ df ->
       cleaned_stored (clean_row r) (cleaned_data w) = true) ->
    clean_rows df rows w = (inr rows', w') ->
    cleaned_data w' = cleaned_data w.
Proof.
  induction df as [|r df IH]; intros rows w rows' w' Hall; cbn [clean_rows].
  - run. now intros [= _ <-].
  - pose proof (Hall r ltac:(left)) as Hr. unfold cleaned_stored in Hr.
    run. rewrite Hr. run. intros Hrun. apply IH in Hrun; [exact Hrun|].
    intros r' Hin. apply Hall. now right.
Qed.

(** X20. Over a raw table whose derived records all have a category, a
    name, a price and an address, cleaning the table again inserts
    nothing. *)
Lemma clean_twice_present (df : list df_raw_row) (w w1 w2 : world)
  (t1 t2 : list df_clean_row) :
  (forall r, r ∈ df -> present (clean_row r)) ->
  clean_raw_dataframe df w = (inr t1, w1) ->
  clean_raw_dataframe df w1 = (inr t2, w2) ->
  cleaned_data w2 = cleaned_data w1.
Proof.
  intros Hp. unfold clean_raw_dataframe. rewrite !run_bind.
  destruct (clean_rows df [] w) as [[e|rows1] w1'] eqn:H1; [discriminate|].
  run. intros [= _ <-].
  destruct (clean_rows df [] w1') as [[e|rows2] w2'] eqn:H2; [discriminate|].
  run. intros [= _ <-].
  apply clean_rows_saved in H1 as [_ Hall].
  apply clean_rows_noop in H2; [exact H2|].
  intros r Hr. apply Hall; [exact Hr|now apply Hp].
Qed.

End CleanTwice.

(** * Further properties *)

(** ** What a scrape does to the state *)

Section ScrapeEffects.
Context {U : UnicodeDB}.
Variable fetch_soup : str -> option soup.

Lemma scrape_containers_effect (category_key url : str) (save_raw : bool)
  (conts : list container) :
  forall rows w rows' w',
    scrape_containers category_key url save_raw conts rows w
    = (inr rows', w') ->
    cleaned_data w' = cleaned_data w
    /\ warnings w' = warnings w
    /\ exists new,
         raw_data w' = raw_data w ++ new
         /\ (save_raw = false -> new = [])
         /\ Forall (fun r => raw_fields r
                             ∈ List.map (fun cont => (category_key, url,
                                                      parse_container cont))
                                 conts) new.
Proof.
  induction conts as [|cont conts IH]; intros rows w rows' w';
    cbn [scrape_containers List.map].
  - run. intros [= _ <-]. repeat split. exists [].
    rewrite app_nil_r. repeat split. constructor.
  - destruct (parse_container cont) as [[[v1 v2] v3] v4]. run.
    destruct save_raw; run;
      [destruct (existsb _ (raw_data w)); run|];
      intros Hrun; apply IH in Hrun as (Hc & Hw & new & Hr & Hs & Hn);
      cbn [raw_data cleaned_data warnings] in Hc, Hw, Hr.
    + repeat split; try assumption. exists new. repeat split; try assumption.
      eapply Forall_impl; [exact Hn|]. intros r Hin. now right.
    + repeat split; try assumption. eexists. split;
        [rewrite Hr, <- app_assoc; reflexivity|].
      split; [discriminate|]. constructor; [left|].
      eapply Forall_impl; [exact Hn|]. intros r Hin. now right.
    + repeat split; try assumption. exists new. repeat split; try assumption.
      eapply Forall_impl; [exact Hn|]. intros r Hin. now right.
Qed.

Lemma scrape_pages_effect (category_key base : str) (save_raw : bool)
  (pages : list nat) :
  forall rows w rows' w',
    scrape_pages fetch_soup category_key base save_raw pages rows w
    = (inr rows', w') ->
    cleaned_data w' = cleaned_data w
    /\ warnings w' = warnings w ++ failed_urls fetch_soup base pages
    /\ exists new,
         raw_data w' = raw_data w ++ new
         /\ (save_raw = false -> new = [])
         /\ Forall (fun r => raw_fields r
                             ∈ flat_map (page_records fetch_soup category_key
                                           base) pages) new.
Proof.
  induction pages as [|page pages IH]; intros rows w rows' w';
    cbn [scrape_pages flat_map].
  - run. intros [= _ <-]. unfold failed_urls. cbn. rewrite app_nil_r.
    repeat split. exists []. rewrite app_nil_r. repeat split. constructor.
  - unfold failed_urls. cbn [List.filter]. fold (failed_urls fetch_soup base pages).
    unfold page_records at 1.
    destruct (fetch_soup (page_url base page)) as [sp|] eqn:Hf.
    + rewrite run_bind.
      destruct (scrape_containers category_key (page_url base page) save_raw
                  (containers sp) rows w) as [[e|rows1] w1] eqn:Hc;
        [discriminate|].
      apply scrape_containers_effect in Hc as (Hc1 & Hw1 & new1 & Hr1 & Hs1 & Hn1).
      intros Hrun. apply IH in Hrun as (Hc2 & Hw2 & new2 & Hr2 & Hs2 & Hn2).
      split; [congruence|]. split; [unfold failed_urls in *; congruence|].
      exists (new1 ++ new2). split; [rewrite Hr2, Hr1; now rewrite app_assoc|].
      split; [intros Hs; now rewrite (Hs1 Hs), (Hs2 Hs)|].
      apply Forall_app. split.
      * eapply Forall_impl; [exact Hn1|]. intros r Hin.
        apply elem_of_app. now left.
      * eapply Forall_impl; [exact Hn2|]. intros r Hin.
        apply elem_of_app. now right.
    + run. intros Hrun. apply IH in Hrun as (Hc2 & Hw2 & new2 & Hr2 & Hs2 & Hn2).
      cbn [raw_data cleaned_data warnings] in Hc2, Hw2, Hr2.
      split; [exact Hc2|]. split.
      * rewrite Hw2. cbn [List.map]. unfold failed_urls.
        now rewrite <- app_assoc.
      * exists new2. repeat split; assumption.
Qed.

(** A scrape of a known category, with everything it does. *)
Lemma scrape_category_run (category_key base : str) (max_pages : option Z)
  (save_raw : bool) (w : world) :
  CATEGORIES !! category_key = Some base ->
  exists rows w',
    scrape_category fetch_soup category_key max_pages save_raw w
    = (inr rows, w')
    /\ List.map raw_fields rows
       = category_records fetch_soup max_pages category_key
    /\ cleaned_data w' = cleaned_data w
    /\ warnings w'
       = warnings w
         ++ failed_urls fetch_soup base
              (page_range fetch_soup base max_pages)
    /\ exists new,
         raw_data w' = raw_data w ++ new
         /\ (save_raw = false -> new = [])
         /\ Forall (fun r => raw_fields r
                             ∈ category_records fetch_soup max_pages
                                 category_key) new.
Proof.
  intros Hk. unfold category_records, scrape_category, page_range.
  rewrite Hk.
  destruct (scrape_pages_rows fetch_soup category_key base save_raw
              (seq 1 (Z.to_nat (page_count fetch_soup base max_pages)))
              [] w) as [rows [w' [Hrun H]]].
  exists rows, w'. split; [exact Hrun|]. split; [exact H|].
  now apply scrape_pages_effect in Hrun.
Qed.

End ScrapeEffects.

(** X1. A scrape of a known category only ever appends to [raw_data]:
    the rows already there stay in place, [cleaned_data] is not
    touched, every row added is one of the returned records (up to its
    timestamp), and with [save_raw=False] nothing is written at all. *)
Theorem scrape_category_store {U : UnicodeDB}
  (fetch_soup : str -> option soup) (category_key base : str)
  (max_pages : option Z) (save_raw : bool) (w : world) :
  CATEGORIES !! category_key = Some base ->
  exists rows w' new,
    scrape_category fetch_soup category_key max_pages save_raw w
    = (inr rows, w')
    /\ raw_data w' = raw_data w ++ new
    /\ cleaned_data w' = cleaned_data w
    /\ (save_raw = false -> raw_data w' = raw_data w)
    /\ Forall (fun r => raw_fields r ∈ List.map raw_fields rows) new.
Proof.
  intros Hk.
  destruct (scrape_category_run fetch_soup category_key base max_pages
              save_raw w Hk)
    as (rows & w' & Hrun & Hrows & Hc & _ & new & Hr & Hs & Hn).
  exists rows, w', new. repeat split; try assumption.
  - intros H. rewrite Hr, (Hs H). apply app_nil_r.
  - now rewrite Hrows.
Qed.

Lemma scrape_category_store_witness :
  CATEGORIES !! u "chiens" = Some chiens_url
  /\ exists rows w' new,
       scrape_category (U := latin1_db) flaky_site (u "chiens") None true
         empty_world = (inr rows, w')
       /\ raw_data w' = raw_data empty_world ++ new
       /\ cleaned_data w' = cleaned_data empty_world
       /\ (true = false -> raw_data w' = raw_data empty_world)
       /\ Forall (fun r => raw_fields r ∈ List.map raw_fields rows) new.
Proof.
  split; [reflexivity|].
  apply (scrape_category_store (U := latin1_db) flaky_site (u "chiens")
           chiens_url None true empty_world).
  reflexivity.
Defined.

(** X2. A scrape of a known category reports through [st.warning]
    exactly the pages of its range that failed to load, once each and
    in page order; a page that loads is never reported. *)
Theorem scrape_category_warnings {U : UnicodeDB}
  (fetch_soup : str -> option soup) (category_key base : str)
  (max_pages : option Z) (save_raw : bool) (w : world) :
  CATEGORIES !! category_key = Some base ->
  warnings (snd (scrape_category fetch_soup category_key max_pages
                   save_raw w))
  = warnings w
    ++ failed_urls fetch_soup base (page_range fetch_soup base max_pages).
Proof.
  intros Hk.
  destruct (scrape_category_run fetch_soup category_key base max_pages
              save_raw w Hk) as (rows & w' & Hrun & _ & _ & Hw & _).
  now rewrite Hrun.
Qed.

Lemma scrape_category_warnings_witness :
  CATEGORIES !! u "chiens" = Some chiens_url
  /\ warnings (snd (scrape_category (U := latin1_db) flaky_site (u "chiens")
                      None true empty_world))
     = warnings empty_world
       ++ failed_urls flaky_site chiens_url
            (page_range (U := latin1_db) flaky_site chiens_url None).
Proof.
  split; [reflexivity|].
  apply (scrape_category_warnings (U := latin1_db) flaky_site (u "chiens")
           chiens_url None true empty_world).
  reflexivity.
Defined.

(** X3. The number of pages a scrape asks for is at least 1, so page 1
    is always requested; a positive [max_pages] caps it; [None], 0 and
    negative values leave the estimate of the first page as it is. *)
Theorem page_count_bounds {U : UnicodeDB} (fetch_soup : str -> option soup)
  (base : str) (max_pages : option Z) :
  let estimate :=
    match fetch_soup base with
    | Some first_soup => Z.of_N (detect_last_page first_soup)
    | None => 1%Z
    end in
  (1 <= page_count fetch_soup base max_pages)%Z
  /\ (page_count fetch_soup base max_pages <= estimate)%Z
  /\ (exists pages, page_range fetch_soup base max_pages = 1%nat :: pages)
  /\ match max_pages with
     | Some mp =>
         if (0 <? mp)%Z
         then (page_count fetch_soup base max_pages <= mp)%Z
              /\ (length (page_range fetch_soup base max_pages)
                  <= Z.to_nat mp)%nat
         else page_count fetch_soup base max_pages = estimate
     | None => page_count fetch_soup base max_pages = estimate
     end.
Proof.
  intros estimate.
  assert (He : (1 <= estimate)%Z).
  { subst estimate. destruct (fetch_soup base) as [sp|]; [|lia].
    rewrite detect_last_page_fold.
    pose proof (fold_max_ge_init (page_numbers sp) 1). lia. }
  assert (Hpc : page_count fetch_soup base max_pages
                = match max_pages with
                  | Some mp => if (0 <? mp)%Z then Z.min estimate mp
                               else estimate
                  | None => estimate
                  end) by reflexivity.
  assert (H1 : (1 <= page_count fetch_soup base max_pages)%Z).
  { rewrite Hpc. destruct max_pages as [mp|]; [|exact He].
    destruct (0 <? mp)%Z eqn:Hmp; [|exact He].
    apply Z.ltb_lt in Hmp. lia. }
  split; [exact H1|]. split; [|split].
  - rewrite Hpc. destruct max_pages as [mp|]; [|lia].
    destruct (0 <? mp)%Z; lia.
  - unfold page_range.
    destruct (Z.to_nat (page_count fetch_soup base max_pages)) as [|n] eqn:Hn;
      [lia|].
    cbn [seq]. now eexists.
  - unfold page_range. rewrite length_seq. rewrite Hpc.
    destruct max_pages as [mp|]; [|reflexivity].
    destruct (0 <? mp)%Z eqn:Hmp; [|reflexivity].
    apply Z.ltb_lt in Hmp. split; lia.
Qed.

(** ** Several categories *)

Section ScrapeMultiple.
Context {U : UnicodeDB}.
Variable fetch_soup : str -> option soup.

Lemma scrape_each_app (l1 l2 : list str) (max_pages : option Z)
  (save_raw : bool) :
  forall dfs w,
    scrape_each fetch_soup (l1 ++ l2) max_pages save_raw dfs w
    = match scrape_each fetch_soup l1 max_pages save_raw dfs w with
      | (inr dfs', w') =>
          scrape_each fetch_soup l2 max_pages save_raw dfs' w'
      | (inl e, w') => (inl e, w')
      end.
Proof.
  induction l1 as [|cat l1 IH]; intros dfs w; cbn [app scrape_each].
  - now rewrite run_ret.
  - rewrite !run_bind.
    destruct (scrape_category fetch_soup cat max_pages save_raw w)
      as [[e|df] w1]; [reflexivity|apply IH].
Qed.

Lemma scrape_each_known (categories : list str) (max_pages : option Z)
  (save_raw : bool) :
  Forall (fun cat => is_Some (CATEGORIES !! cat)) categories ->
  forall dfs w, exists dfs' w',
    scrape_each fetch_soup categories max_pages save_raw dfs w
    = (inr dfs', w')
    /\ List.map raw_fields (concat dfs')
       = List.map raw_fields (concat dfs)
         ++ flat_map (category_records fetch_soup max_pages) categories
    /\ cleaned_data w' = cleaned_data w
    /\ exists new, raw_data w' = raw_data w ++ new
                   /\ (save_raw = false -> new = []).
Proof.
  induction 1 as [|cat cats [base Hk] _ IH]; intros dfs w;
    cbn [scrape_each flat_map].
  - exists dfs, w. run. rewrite app_nil_r. repeat split.
    exists []. now rewrite app_nil_r.
  - rewrite run_bind.
    destruct (scrape_category_run fetch_soup cat base max_pages save_raw w Hk)
      as (df & w1 & -> & Hdf & Hc1 & _ & new1 & Hr1 & Hs1 & _).
    destruct (IH (dfs ++ [df]) w1)
      as (dfs' & w' & -> & Hfields & Hc2 & new2 & Hr2 & Hs2).
    exists dfs', w'. split; [reflexivity|]. split; [|split; [congruence|]].
    + rewrite Hfields, concat_app, map_app. cbn [concat].
      rewrite app_nil_r, Hdf. now rewrite <- app_assoc.
    + exists (new1 ++ new2). split; [rewrite Hr2, Hr1; now rewrite app_assoc|].
      intros Hs. now rewrite (Hs1 Hs), (Hs2 Hs).
Qed.

End ScrapeMultiple.

(** X4. Over categories that are all known, [scrape_multiple] returns
    the records of each category one after the other, in the order the
    categories were given (an empty table for no category); it only
    appends to [raw_data], writes nothing with [save_raw=False], and
    leaves [cleaned_data] alone. *)
Theorem scrape_multiple_known {U : UnicodeDB}
  (fetch_soup : str -> option soup) (categories : list str)
  (max_pages : option Z) (save_raw : bool) (w : world) :
  Forall (fun cat => is_Some (CATEGORIES !! cat)) categories ->
  exists rows w' new,
    scrape_multiple fetch_soup categories max_pages save_raw w
    = (inr rows, w')
    /\ List.map raw_fields rows
       = flat_map (category_records fetch_soup max_pages) categories
    /\ raw_data w' = raw_data w ++ new
    /\ (save_raw = false -> new = [])
    /\ cleaned_data w' = cleaned_data w.
Proof.
  intros Hk. unfold scrape_multiple. rewrite run_bind.
  destruct (scrape_each_known fetch_soup categories max_pages save_raw Hk
              [] w) as (dfs & w' & -> & Hfields & Hc & new & Hr & Hs).
  run. exists (match dfs with [] => [] | _ :: _ => concat dfs end), w', new.
  split; [reflexivity|]. repeat split; try assumption.
  change (List.map raw_fields (concat []) ++ ?l) with l in Hfields.
  rewrite <- Hfields. now destruct dfs.
Qed.

Lemma scrape_multiple_known_witness :
  Forall (fun cat => is_Some (CATEGORIES !! cat)) [u "chiens"; u "moutons"]
  /\ exists rows w' new,
       scrape_multiple (U := latin1_db) flaky_site [u "chiens"; u "moutons"]
         None true empty_world = (inr rows, w')
       /\ List.map raw_fields rows
          = flat_map (category_records (U := latin1_db) flaky_site None)
              [u "chiens"; u "moutons"]
       /\ raw_data w' = raw_data empty_world ++ new
       /\ (true = false -> new = [])
       /\ cleaned_data w' = cleaned_data empty_world.
Proof.
  assert (H : Forall (fun cat => is_Some (CATEGORIES !! cat))
                [u "chiens"; u "moutons"])
    by (repeat constructor; eexists; reflexivity).
  split; [exact H|].
  exact (scrape_multiple_known (U := latin1_db) flaky_site
           [u "chiens"; u "moutons"] None true empty_world H).
Defined.

(** X5. When a category of the list is unknown, [scrape_multiple]
    raises the [KeyError] of the first such key and returns no table,
    but nothing is rolled back: the state is the one the categories
    before it left, their rows inserted; the categories after it are
    not scraped. *)
Theorem scrape_multiple_unknown {U : UnicodeDB}
  (fetch_soup : str -> option soup) (known : list str) (bad : str)
  (rest : list str) (max_pages : option Z) (save_raw : bool) (w : world) :
  Forall (fun cat => is_Some (CATEGORIES !! cat)) known ->
  CATEGORIES !! bad = None ->
  scrape_multiple fetch_soup (known ++ bad :: rest) max_pages save_raw w
  = (inl (KeyError bad),
     snd (scrape_multiple fetch_soup known max_pages save_raw w)).
Proof.
  intros Hk Hbad. unfold scrape_multiple. rewrite !run_bind.
  rewrite scrape_each_app.
  destruct (scrape_each_known fetch_soup known max_pages save_raw Hk [] w)
    as (dfs & w' & -> & _).
  run. cbn [scrape_each]. rewrite run_bind.
  unfold scrape_category. rewrite Hbad. reflexivity.
Qed.

Lemma scrape_multiple_unknown_witness :
  Forall (fun cat => is_Some (CATEGORIES !! cat)) [u "chiens"]
  /\ CATEGORIES !! u "chats" = None
  /\ scrape_multiple (U := latin1_db) flaky_site
       ([u "chiens"] ++ u "chats" :: [u "moutons"]) None true empty_world
     = (inl (KeyError (u "chats")),
        snd (scrape_multiple (U := latin1_db) flaky_site [u "chiens"] None
               true empty_world)).
Proof.
  assert (H : Forall (fun cat => is_Some (CATEGORIES !! cat)) [u "chiens"])
    by (repeat constructor; eexists; reflexivity).
  split; [exact H|]. split; [reflexivity|].
  exact (scrape_multiple_unknown (U := latin1_db) flaky_site [u "chiens"]
           (u "chats") [u "moutons"] None true empty_world H eq_refl).
Defined.

(** ** Uniqueness of complete records *)

Lemma raw_match_identity (r r' : raw_row) :
  full_row r = true -> raw_identity r' = raw_identity r ->
  raw_match (raw_category r) (raw_v1 r) (raw_v2 r) (raw_v3 r) (raw_v4 r) r'
  = true.
Proof.
  unfold full_row, raw_identity, raw_match. intros Hfull [= -> -> -> -> ->].
  destruct (raw_v1 r), (raw_v2 r), (raw_v3 r), (raw_v4 r); try discriminate.
  rewrite !sql_text_eq_refl, bool_decide_eq_true_2 by reflexivity.
  reflexivity.
Qed.

Lemma insert_unique_full (store : list raw_row) (r : raw_row) :
  existsb (raw_match (raw_category r) (raw_v1 r) (raw_v2 r) (raw_v3 r)
             (raw_v4 r)) store = false ->
  unique_full store -> unique_full (store ++ [r]).
Proof.
  intros Hnew Hu. unfold unique_full in *.
  rewrite List.filter_app, map_app. cbn [List.filter].
  destruct (full_row r) eqn:Hfull; cbn [List.map]; [|now rewrite app_nil_r].
  apply NoDup_app. split; [exact Hu|]. split; [|apply NoDup_singleton].
  intros i Hi Hi'. apply list_elem_of_singleton in Hi' as ->.
  apply list_elem_of_fmap in Hi as (r' & Heq & Hr').
  apply list_elem_of_In, filter_In in Hr' as [Hr' _].
  assert (Hex : existsb (raw_match (raw_category r) (raw_v1 r) (raw_v2 r)
                           (raw_v3 r) (raw_v4 r)) store = true).
  { apply existsb_exists. exists r'. split; [exact Hr'|].
    now apply raw_match_identity. }
  congruence.
Qed.

Section Uniqueness.
Context {U : UnicodeDB}.
Variable fetch_soup : str -> option soup.

Lemma scrape_containers_unique (category_key url : str) (save_raw : bool)
  (conts : list container) :
  forall rows w rows' w',
    scrape_containers category_key url save_raw conts rows w
    = (inr rows', w') ->
    unique_full (raw_data w) -> unique_full (raw_data w').
Proof.
  induction conts as [|cont conts IH]; intros rows w rows' w';
    cbn [scrape_containers].
  - run. now intros [= _ <-].
  - destruct (parse_container cont) as [[[v1 v2] v3] v4]. run.
    destruct save_raw; run;
      [destruct (existsb _ (raw_data w)) eqn:Hfound; run|];
      intros Hrun Hu; apply IH in Hrun; try exact Hrun; try exact Hu.
    cbn [raw_data]. now apply insert_unique_full.
Qed.

Lemma scrape_pages_unique (category_key base : str) (save_raw : bool)
  (pages : list nat) :
  forall rows w rows' w',
    scrape_pages fetch_soup category_key base save_raw pages rows w
    = (inr rows', w') ->
    unique_full (raw_data w) -> unique_full (raw_data w').
Proof.
  induction pages as [|page pages IH]; intros rows w rows' w';
    cbn [scrape_pages].
  - run. now intros [= _ <-].
  - destruct (fetch_soup (page_url base page)) as [sp|].
    + rewrite run_bind.
      destruct (scrape_containers category_key (page_url base page) save_raw
                  (containers sp) rows w) as [[e|rows1] w1] eqn:Hc;
        [discriminate|].
      intros Hrun Hu. apply IH in Hrun; [exact Hrun|].
      exact (scrape_containers_unique _ _ _ _ _ _ _ _ Hc Hu).
    + run. intros Hrun Hu. apply IH in Hrun; [exact Hrun|exact Hu].
Qed.

End Uniqueness.

(** X6. When no two rows of [raw_data] without a missing field share
    an identity, this still holds after a scrape, whatever it returns:
    the check before the insert never lets a second copy of a complete
    record in. *)
Theorem scrape_category_unique {U : UnicodeDB}
  (fetch_soup : str -> option soup) (category_key : str)
  (max_pages : option Z) (save_raw : bool) (w : world) :
  unique_full (raw_data w) ->
  unique_full (raw_data (snd (scrape_category fetch_soup category_key
                                max_pages save_raw w))).
Proof.
  intros Hu. unfold scrape_category.
  destruct (CATEGORIES !! category_key) as [base|]; [|exact Hu].
  destruct (scrape_pages fetch_soup category_key base save_raw
              (seq 1 (Z.to_nat (page_count fetch_soup base max_pages)))
              [] w) as [[e|rows] w'] eqn:Hrun.
  - destruct (scrape_pages_rows fetch_soup category_key base save_raw
                (seq 1 (Z.to_nat (page_count fetch_soup base max_pages)))
                [] w) as (rows & w'' & H & _).
    rewrite H in Hrun. discriminate Hrun.
  - exact (scrape_pages_unique fetch_soup _ _ _ _ _ _ _ _ Hrun Hu).
Qed.

Lemma scrape_category_unique_witness :
  unique_full (raw_data empty_world)
  /\ unique_full (raw_data (snd (scrape_category (U := latin1_db) twin_site
                                   (u "chiens") None true empty_world))).
Proof.
  assert (H : unique_full (raw_data empty_world)) by constructor.
  split; [exact H|].
  exact (scrape_category_unique (U := latin1_db) twin_site (u "chiens")
           None true empty_world H).
Defined.

(** ** Importing twice *)

Lemma save_rows_noop (df : list (gmap str pyval)) :
  forall saved w,
    (forall row, row ∈ df -> in_store (stringified row) (raw_data w) = true) ->
    save_rows df saved w = (inr saved, w).
Proof.
  induction df as [|row df IH]; intros saved w Hall; cbn [save_rows].
  - now rewrite run_ret.
  - pose proof (Hall row ltac:(left)) as Hrow. unfold stringified in Hrow.
    destruct (upload_fields row) as [[[v1 v2] v3] v4]. cbn [in_store] in Hrow.
    run. rewrite Hrow. apply IH. intros r Hr. apply Hall. now right.
Qed.

(** X7. Importing a table and then importing the same table again:
    the second import inserts nothing, returns 0 and leaves the whole
    state as the first import left it, whatever the table and the store
    were.  (The import binds [str(v)], never [NULL], so the check always
    finds what the first import stored.) *)
Theorem save_uploaded_to_raw_twice (df : list (gmap str pyval)) (w : world) :
  exists n w1,
    save_uploaded_to_raw df w = (inr n, w1)
    /\ save_uploaded_to_raw df w1 = (inr 0%nat, w1).
Proof.
  unfold save_uploaded_to_raw.
  destruct (save_rows_spec df 0%nat w) as (new & w1 & H1 & _ & _ & _ & _ & Hall).
  exists (0 + length new)%nat, w1. split; [exact H1|].
  now apply save_rows_noop.
Qed.

(** ** The returned cleaned table *)

Lemma drop_duplicates_from_sublist (rows : list df_clean_row) :
  forall seen, sublist (drop_duplicates_from seen rows) rows.
Proof.
  induction rows as [|r rows IH]; intros seen; cbn [drop_duplicates_from].
  - constructor.
  - destruct (existsb (same_key r) seen).
    + apply sublist_cons, IH.
    + apply sublist_skip, IH.
Qed.

Lemma drop_duplicates_from_distinct (rows : list df_clean_row) :
  forall seen l1 a l2,
    drop_duplicates_from seen rows = l1 ++ a :: l2 ->
    existsb (same_key a) seen = false
    /\ forall b, b ∈ l1 -> same_key a b = false.
Proof.
  induction rows as [|r rows IH]; intros seen l1 a l2;
    cbn [drop_duplicates_from].
  - intros H. now destruct l1.
  - destruct (existsb (same_key r) seen) eqn:Hr; [apply IH|].
    destruct l1 as [|x l1]; cbn [app]; intros [= <- H].
    + split; [exact Hr|]. intros b Hb. now apply elem_of_nil in Hb.
    + apply IH in H as [Hseen Hl1]. cbn [existsb] in Hseen.
      apply orb_false_iff in Hseen as [Har Hseen].
      split; [exact Hseen|]. intros b Hb.
      apply elem_of_cons in Hb as [->|Hb]; [exact Har|now apply Hl1].
Qed.

Lemma drop_duplicates_from_covers (rows : list df_clean_row) :
  (forall d, d ∈ rows -> same_key d d = true) ->
  forall seen d, d ∈ rows ->
    existsb (same_key d) seen = true
    \/ exists k, k ∈ drop_duplicates_from seen rows /\ same_key d k = true.
Proof.
  induction rows as [|r rows IH]; intros Hrefl seen d Hd.
  - now apply elem_of_nil in Hd.
  - assert (Hrefl' : forall d, d ∈ rows -> same_key d d = true)
      by (intros x Hx; apply Hrefl; now right).
    cbn [drop_duplicates_from].
    destruct (existsb (same_key r) seen) eqn:Hr.
    + apply elem_of_cons in Hd as [->|Hd]; [now left|now apply IH].
    + apply elem_of_cons in Hd as [->|Hd].
      * right. exists r. split; [left|apply Hrefl; left].
      * destruct (IH Hrefl' (r :: seen) d Hd) as [H|(k & Hk & Hdk)].
        -- cbn [existsb] in H. apply orb_true_iff in H as [H|H];
             [|now left].
           right. exists r. split; [left|exact H].
        -- right. exists k. split; [now right|exact Hdk].
Qed.

Lemma same_key_refl {U : UnicodeDB} (r : df_raw_row) :
  same_key (clean_row r) (clean_row r) = true.
Proof.
  unfold same_key, pd_str_eq.
  rewrite !bool_decide_eq_true_2 by reflexivity.
  cbn [clean_row d_price andb]. rewrite andb_true_r.
  destruct (clean_price (r_v2 r)) as [x|] eqn:Hx; [|reflexivity].
  exact (clean_price_number _ _ Hx).
Qed.

(** X8. The table [clean_raw_dataframe] returns holds derived records
    in their original order, no two of them with the same name, price
    and address, and every derived record has one with its name, price
    and address in it: of the records that agree on these three, also
    across categories, exactly the first is kept. *)
Theorem clean_raw_dataframe_table {U : UnicodeDB} (df : list df_raw_row)
  (w : world) :
  exists table w',
    clean_raw_dataframe df w = (inr table, w')
    /\ sublist table (List.map clean_row df)
    /\ (forall l1 a l2 b l3, table = l1 ++ a :: l2 ++ b :: l3 ->
          same_key b a = false)
    /\ (forall r, r ∈ df ->
          exists k, k ∈ table /\ same_key (clean_row r) k = true).
Proof.
  pose proof (clean_raw_dataframe_value df w) as Hv.
  destruct (clean_raw_dataframe df w) as [[e|table] w'];
    cbn [fst] in Hv; [discriminate|].
  injection Hv as ->. eexists. exists w'. split; [reflexivity|].
  unfold drop_duplicates. split; [apply drop_duplicates_from_sublist|].
  split.
  - intros l1 a l2 b l3 H.
    change (l1 ++ a :: l2 ++ b :: l3) with (l1 ++ (a :: l2) ++ b :: l3) in H.
    rewrite app_assoc in H.
    apply drop_duplicates_from_distinct in H as [_ H].
    apply H. apply elem_of_app. right. left.
  - intros r Hr.
    destruct (drop_duplicates_from_covers (List.map clean_row df)) with
      (seen := @nil df_clean_row) (d := clean_row r) as [H|H].
    + intros d Hd. apply list_elem_of_fmap in Hd as (r' & -> & _).
      apply same_key_refl.
    + apply list_elem_of_fmap. now exists r.
    + discriminate H.
    + exact H.
Qed.

(** ** What cleaning does to the state *)

Lemma clean_rows_effect {U : UnicodeDB} (df : list df_raw_row) :
  forall rows w rows' w',
    clean_rows df rows w = (inr rows', w') ->
    raw_data w' = raw_data w
    /\ warnings w' = warnings w
    /\ exists new,
         cleaned_data w' = cleaned_data w ++ new
         /\ (length new <= length df)%nat
         /\ Forall (fun c => exists r, r ∈ df
                      /\ cleaned_identity c
                         = (d_category (clean_row r), d_name (clean_row r),
                            d_price (clean_row r), d_address (clean_row r))
                      /\ cl_image c = d_image (clean_row r)) new.
Proof.
  induction df as [|r df IH]; intros rows w rows' w'; cbn [clean_rows].
  - run. intros [= _ <-]. repeat split. exists [].
    rewrite app_nil_r. repeat split; [reflexivity|constructor].
  - run. destruct (existsb _ (cleaned_data w)); run; intros Hrun;
      apply IH in Hrun as (Hr & Hw & new & Hc & Hlen & Hn);
      cbn [raw_data cleaned_data warnings] in Hr, Hw, Hc.
    + repeat split; try assumption. exists new.
      split; [exact Hc|]. split; [cbn [length]; lia|].
      eapply Forall_impl; [exact Hn|].
      intros c (r' & Hin & Hid). exists r'. split; [now right|exact Hid].
    + repeat split; try assumption. eexists.
      split; [rewrite Hc, <- app_assoc; reflexivity|].
      split; [cbn [length app]; lia|].
      constructor.
      * exists r. split; [left|]. split; reflexivity.
      * eapply Forall_impl; [exact Hn|].
        intros c (r' & Hin & Hid). exists r'. split; [now right|exact Hid].
Qed.

(** X9. Cleaning only ever appends to [cleaned_data]: the rows already
    there stay in place, [raw_data] is not touched, at most one row is
    added per raw row, and every row added carries the category, name,
    price, address and image derived from one of the raw rows. *)
Theorem clean_raw_dataframe_store {U : UnicodeDB} (df : list df_raw_row)
  (w : world) :
  exists table w' new,
    clean_raw_dataframe df w = (inr table, w')
    /\ raw_data w' = raw_data w
    /\ cleaned_data w' = cleaned_data w ++ new
    /\ (length new <= length df)%nat
    /\ Forall (fun c => exists r, r ∈ df
                 /\ cleaned_identity c
                    = (d_category (clean_row r), d_name (clean_row r),
                       d_price (clean_row r), d_address (clean_row r))
                 /\ cl_image c = d_image (clean_row r)) new.
Proof.
  unfold clean_raw_dataframe. rewrite run_bind.
  destruct (clean_rows df [] w) as [[e|rows] w'] eqn:Hrun.
  - pose proof (clean_rows_value df [] w) as Hv. rewrite Hrun in Hv.
    discriminate Hv.
  - apply clean_rows_effect in Hrun as (Hr & _ & new & Hc & Hlen & Hn).
    run. exists (drop_duplicates rows), w', new. repeat split; assumption.
Qed.

(** ** More on prices *)

Lemma binary_round_aux_sign (prec emax : Z) (sx : bool) (mx ex : Z)
  (lx : location) :
  (0 <= mx)%Z ->
  match binary_round_aux prec emax sx mx ex lx with
  | S754_zero s | S754_infinity s | S754_finite s _ _ => s = sx
  | S754_nan => False
  end.
Proof.
  intros Hm. unfold binary_round_aux.
  pose proof (shr_fexp_nonneg prec emax mx ex lx Hm) as H1.
  destruct (shr_fexp prec emax mx ex lx) as [mrs' e']. cbn [fst] in H1.
  set (m1 := round_nearest_even (shr_m mrs') (loc_of_shr_record mrs')).
  assert (Hm1 : (0 <= m1)%Z).
  { subst m1. unfold round_nearest_even.
    destruct (loc_of_shr_record mrs') as [|[]]; try lia.
    destruct (Z.even (shr_m mrs')); lia. }
  pose proof (shr_fexp_nonneg prec emax m1 e' loc_Exact Hm1) as H2.
  destruct (shr_fexp prec emax m1 e' loc_Exact) as [mrs'' e''].
  cbn [fst] in H2.
  destruct (shr_m mrs'') as [|p|p]; [reflexivity| |lia].
  destruct (e'' <=? emax - prec)%Z; reflexivity.
Qed.

Lemma float_of_decimal_sign (m : N) (k : nat) :
  match float_of_decimal m k with
  | S754_zero s | S754_infinity s | S754_finite s _ _ => s = false
  | S754_nan => False
  end.
Proof.
  unfold float_of_decimal. destruct m as [|p]; [reflexivity|].
  unfold SFdiv, SFdiv_core_binary.
  set (q := Nat.iter k (Pos.mul 10) 1%positive).
  set (m' := match _ with Z0 => Z.pos p | Z.pos _ => _ | Z.neg _ => 0%Z end).
  assert (Hm' : (0 <= m')%Z).
  { subst m'. destruct (_ - _ - _)%Z; try lia.
    apply Z.shiftl_nonneg. lia. }
  pose proof (Z.div_pos m' (Z.pos q) Hm' ltac:(lia)) as Hq.
  unfold Z.div in Hq. destruct (Z.div_eucl m' (Z.pos q)) as [d r].
  cbn [fst] in Hq. now apply binary_round_aux_sign.
Qed.

(** X10. A price that is present is never NaN and never negative: it
    is +0, a positive double or +infinity (a long enough run of digits
    overflows to infinity). *)
Theorem clean_price_nonnegative {U : UnicodeDB} (raw_price : pyval)
  (x : float) :
  clean_price raw_price = Some x ->
  match x with
  | S754_zero s | S754_infinity s | S754_finite s _ _ => s = false
  | S754_nan => False
  end.
Proof.
  intros H. unfold clean_price in H.
  assert (Hf : exists d, py_float d = inr x).
  { destruct raw_price; [discriminate| |];
      (destruct (price_digits _) as [|c d]; [discriminate|]);
      (destruct (py_float (c :: d)) as [e|y] eqn:Hy; [discriminate|]);
      injection H as <-; now exists (c :: d). }
  destruct Hf as [d Hf].
  apply py_float_inr in Hf as (ip & fp & m & _ & _ & ->).
  apply float_of_decimal_sign.
Qed.

Lemma clean_price_nonnegative_witness :
  clean_price (U := latin1_db) (PStr (u "12 500 CFA"))
  = Some (S754_finite false 6871947673600000 (-39))
  /\ false = false.
Proof.
  split; [vm_compute; reflexivity|].
  exact (clean_price_nonnegative (U := latin1_db) (PStr (u "12 500 CFA"))
           (S754_finite false 6871947673600000 (-39)) eq_refl).
Defined.

Lemma split_point_length (s : str) :
  forall cur,
    length (split_from [46] 0 cur s) = S (count_occ N.eq_dec s 46).
Proof.
  induction s as [|c s IH]; intros cur; cbn [split_from count_occ];
    [reflexivity|].
  cbn [startswith length Nat.pred]. rewrite andb_true_r.
  destruct (N.eq_dec c 46) as [->|Hc].
  - cbn [N.eqb Pos.eqb length]. now rewrite IH.
  - assert (H : (46 =? c) = false) by (apply N.eqb_neq; congruence).
    rewrite H. apply IH.
Qed.

Lemma count_point_filter {U : UnicodeDB} (s : str) :
  count_occ N.eq_dec (List.filter price_char s) 46
  = count_occ N.eq_dec s 46.
Proof.
  induction s as [|c s IH]; [reflexivity|]. cbn [List.filter count_occ].
  destruct (N.eq_dec c 46) as [->|Hc].
  - unfold price_char at 1. cbn [N.eqb Pos.eqb]. rewrite orb_true_r.
    cbn [count_occ]. destruct (N.eq_dec 46 46); [|contradiction].
    now rewrite IH.
  - destruct (price_char c); [|exact IH]. cbn [count_occ].
    destruct (N.eq_dec c 46); [contradiction|exact IH].
Qed.

(** X11. Only the digits and points of a price text count: two texts
    with the same digits and points in the same order clean to the same
    price, so letters, blanks, commas and a minus sign change
    nothing. *)
Theorem clean_price_only_digits {U : UnicodeDB} (L : UnicodeLaws U)
  (s s' : str) :
  List.filter price_char s = List.filter price_char s' ->
  clean_price (PStr s) = clean_price (PStr s').
Proof.
  intros H. unfold clean_price. cbn [py_str].
  now rewrite !price_digits_filter, H.
Qed.

Lemma clean_price_only_digits_witness :
  UnicodeLaws latin1_db
  /\ List.filter (price_char (U := latin1_db)) (u "-12 500 CFA")
     = List.filter (price_char (U := latin1_db)) (u "12500")
  /\ clean_price (U := latin1_db) (PStr (u "-12 500 CFA"))
     = clean_price (U := latin1_db) (PStr (u "12500")).
Proof.
  split; [exact latin1_laws|]. split; [vm_compute; reflexivity|].
  apply (clean_price_only_digits latin1_laws (u "-12 500 CFA") (u "12500")).
  vm_compute. reflexivity.
Defined.

(** X12. A price text with two or more points has no price: points
    are kept as decimal points, so a text that uses them to group
    thousands, as in [1.500.000 CFA], cleans to absent. *)
Theorem clean_price_two_points {U : UnicodeDB} (L : UnicodeLaws U) (s : str) :
  (2 <= count_occ N.eq_dec s 46%N)%nat ->
  clean_price (PStr s) = None.
Proof.
  intros H. unfold clean_price. cbn [py_str]. rewrite price_digits_filter.
  destruct (List.filter price_char s) as [|c d] eqn:Hd; [reflexivity|].
  rewrite <- Hd. unfold py_float.
  pose proof (split_point_length (List.filter price_char s) []) as Hlen.
  rewrite count_point_filter in Hlen. fold (split [46] (List.filter price_char s)) in Hlen.
  destruct (split [46] (List.filter price_char s)) as [|ip [|fp [|q l]]];
    cbn [length] in Hlen; try lia.
  reflexivity.
Qed.

Lemma clean_price_two_points_witness :
  UnicodeLaws latin1_db
  /\ (2 <= count_occ N.eq_dec (u "1.500.000 CFA") 46%N)%nat
  /\ clean_price (U := latin1_db) (PStr (u "1.500.000 CFA")) = None.
Proof.
  split; [exact latin1_laws|].
  assert (H : (2 <= count_occ N.eq_dec (u "1.500.000 CFA") 46%N)%nat)
    by (vm_compute; lia).
  split; [exact H|].
  exact (clean_price_two_points latin1_laws (u "1.500.000 CFA") H).
Defined.

(** ** Cleaning what is already clean *)

Lemma lstrip_fixed (s : str) :
  (forall c t, s = c :: t -> isspace c = false) -> lstrip s = s.
Proof.
  destruct s as [|c s]; [reflexivity|]. intros H. cbn [lstrip].
  now rewrite (H c s eq_refl).
Qed.

Lemma strip_fixed (s : str) :
  (forall c t, s = c :: t -> isspace c = false) ->
  (forall c t, s = t ++ [c] -> isspace c = false) ->
  strip s = s.
Proof.
  intros Hhd Hlast. unfold strip, rstrip. rewrite (lstrip_fixed s Hhd).
  rewrite lstrip_fixed; [apply rev_involutive|].
  intros c t Hrev. apply (Hlast c (rev t)).
  apply (f_equal (@rev N)) in Hrev. rewrite rev_involutive in Hrev.
  exact Hrev.
Qed.

Lemma strip_idempotent (s : str) : strip (strip s) = strip s.
Proof.
  destruct (strip_spec s) as (_ & Hhd & Hlast). now apply strip_fixed.
Qed.

Lemma replace_absent (old new s : str) :
  old <> [] -> contains old s = false -> replace old new s = s.
Proof.
  intros Hne. destruct old as [|a old]; [contradiction|]. cbn [replace].
  induction s as [|c s IH]; [reflexivity|]. cbn [contains replace_from].
  intros H. apply orb_false_iff in H as [Hst Hc].
  cbn [startswith] in Hst. cbn [startswith]. rewrite Hst.
  now rewrite (IH Hc).
Qed.

Lemma words_from_word (w : str) :
  forallb nonblank w = true ->
  forall cur rest, words_from cur (w ++ rest) = words_from (rev w ++ cur) rest.
Proof.
  induction w as [|c w IH]; intros Hw cur rest; [reflexivity|].
  cbn [forallb] in Hw. apply andb_true_iff in Hw as [Hc Hw].
  cbn [app words_from]. rewrite (nonblank_false c Hc), (IH Hw).
  cbn [rev]. now rewrite <- app_assoc.
Qed.

(** Words joined by single spaces split back into the same words. *)
Lemma split_ws_join (ws : list str) :
  Forall (fun w => w <> [] /\ forallb nonblank w = true) ws ->
  split_ws (join [32] ws) = ws.
Proof.
  unfold split_ws. induction 1 as [|w ws [Hne Hw] Hws IH]; [reflexivity|].
  rewrite join_cons, (words_from_word w Hw), app_nil_r.
  assert (Hrev : rev w <> []).
  { intros H. apply Hne. apply (f_equal (@rev N)) in H.
    now rewrite rev_involutive in H. }
  destruct ws as [|w' ws'].
  - cbn [words_from]. destruct (rev w) eqn:E; [contradiction|].
    now rewrite <- E, rev_involutive.
  - cbn [app words_from]. change (isspace 32) with true. cbv iota.
    destruct (rev w) eqn:E; [contradiction|].
    rewrite <- E, rev_involutive. now rewrite IH.
Qed.

(** X13. Cleaning a cleaned address again gives the same address, as
    long as it holds no marker (the one way it can is a marker wrapped
    around a marker in the raw text). *)
Theorem clean_address_idempotent (raw_addr : pyval) (r : str) :
  clean_address raw_addr = Some r ->
  contains marker r = false ->
  clean_address (PStr r) = Some r.
Proof.
  intros Hr Hfree.
  assert (Hv : raw_addr <> PNone) by (intros ->; discriminate Hr).
  destruct (clean_address_words raw_addr Hv) as (Hdef & _ & _ & Hhd & Hlast & _).
  set (t := replace marker [] (py_str raw_addr)) in *.
  pose proof (words_from_spec (strip t) [] eq_refl) as Hws.
  fold (split_ws (strip t)) in Hws.
  assert (Hws' : Forall (fun w => w <> [] /\ forallb nonblank w = true)
                   (split_ws (strip t))).
  { eapply Forall_impl; [exact Hws|]. intros w (H1 & H2 & _). now split. }
  rewrite Hdef in Hr.
  destruct (join [32] (split_ws (strip t))) as [|c r'] eqn:Hj; [discriminate|].
  injection Hr as <-.
  unfold clean_address. cbn [py_str].
  rewrite (replace_absent marker [] (c :: r')) by (discriminate || exact Hfree).
  rewrite (strip_fixed (c :: r') Hhd Hlast).
  change (u " ") with [32]. rewrite <- Hj.
  rewrite (split_ws_join _ Hws'). now rewrite Hj.
Qed.

Lemma clean_address_idempotent_witness :
  clean_address (PStr dakar_raw) = Some dakar_clean
  /\ contains marker dakar_clean = false
  /\ clean_address (PStr dakar_clean) = Some dakar_clean.
Proof.
  split; [vm_compute; reflexivity|]. split; [vm_compute; reflexivity|].
  apply (clean_address_idempotent (PStr dakar_raw) dakar_clean).
  - vm_compute. reflexivity.
  - vm_compute. reflexivity.
Defined.

(** ** Extracted fields *)

(** X14. The three text fields [parse_container] returns are trimmed:
    a field that is present is left unchanged by [strip]; and each of
    them is missing exactly when its own paragraph is, whatever the
    other elements of the card. *)
Theorem parse_container_trimmed (cont : container) :
  let '(v1, v2, v3, v4) := parse_container cont in
  (forall s, v1 = Some s \/ v2 = Some s \/ v3 = Some s -> strip s = s)
  /\ (v1 = None <-> ad_description cont = None)
  /\ (v2 = None <-> ad_price cont = None)
  /\ (v3 = None <-> ad_location cont = None).
Proof.
  unfold parse_container.
  split; [|split; [|split]].
  - intros s [H|[H|H]].
    + destruct (ad_description cont) as [p|]; [|discriminate].
      destruct (p_a p); injection H as <-; apply strip_idempotent.
    + destruct (ad_price cont); [|discriminate].
      injection H as <-. apply strip_idempotent.
    + destruct (ad_location cont); [|discriminate].
      injection H as <-. apply strip_idempotent.
  - destruct (ad_description cont) as [p|]; [|easy].
    destruct (p_a p); split; discriminate.
  - destruct (ad_price cont); split; easy.
  - destruct (ad_location cont); split; easy.
Qed.

(** X15. Cleaning the table a scrape returned leaves each record's name
    as the scraper stored it in [v1] (it is trimmed already), keeps the
    category and passes the image through. *)
Theorem scraped_name_unchanged {U : UnicodeDB}
  (fetch_soup : str -> option soup) (category_key base : str)
  (max_pages : option Z) (save_raw : bool) (w : world) :
  CATEGORIES !! category_key = Some base ->
  exists rows w',
    scrape_category fetch_soup category_key max_pages save_raw w
    = (inr rows, w')
    /\ Forall (fun r =>
                 d_name (clean_row (df_row_of_raw r)) = raw_v1 r
                 /\ d_category (clean_row (df_row_of_raw r))
                    = Some category_key
                 /\ d_image (clean_row (df_row_of_raw r)) = raw_v4 r) rows.
Proof.
  intros Hk.
  destruct (scrape_category_run fetch_soup category_key base max_pages
              save_raw w Hk) as (rows & w' & Hrun & Hrows & _).
  exists rows, w'. split; [exact Hrun|].
  apply Forall_forall. intros r Hr.
  assert (Hf : raw_fields r
               ∈ category_records fetch_soup max_pages category_key).
  { rewrite <- Hrows. apply list_elem_of_fmap. now exists r. }
  unfold category_records in Hf. rewrite Hk in Hf.
  apply list_elem_of_In, in_flat_map in Hf as (page & _ & Hf).
  unfold page_records in Hf.
  destruct (fetch_soup (page_url base page)) as [sp|]; [|contradiction].
  apply in_map_iff in Hf as (cont & Hf & _).
  unfold raw_fields in Hf. injection Hf as Hcat _ Hvals.
  cbn [clean_row df_row_of_raw d_name d_category d_image r_v1 r_category r_v4].
  split; [|split; [now rewrite Hcat|reflexivity]].
  rewrite <- Hvals.
  destruct (ad_description cont) as [p|]; [|reflexivity].
  destruct (p_a p); cbn [of_opt clean_name]; now rewrite strip_idempotent.
Qed.

Lemma scraped_name_unchanged_witness :
  CATEGORIES !! u "chiens" = Some chiens_url
  /\ exists rows w',
       scrape_category (U := latin1_db) flaky_site (u "chiens") None true
         empty_world = (inr rows, w')
       /\ Forall (fun r =>
                    d_name (clean_row (U := latin1_db) (df_row_of_raw r))
                    = raw_v1 r
                    /\ d_category (clean_row (U := latin1_db)
                                     (df_row_of_raw r))
                       = Some (u "chiens")
                    /\ d_image (clean_row (U := latin1_db) (df_row_of_raw r))
                       = raw_v4 r) rows.
Proof.
  split; [reflexivity|].
  apply (scraped_name_unchanged (U := latin1_db) flaky_site (u "chiens")
           chiens_url None true empty_world).
  reflexivity.
Defined.

(** ** Links and the estimate *)

(** X16. The pagination estimate depends only on which links the page
    holds: a page with more links never gets a smaller estimate, and
    two pages with the same links, in any order and any number of
    copies, get the same one. *)
Theorem detect_last_page_links {U : UnicodeDB} (sp sp' : soup) :
  (forall href, href ∈ hrefs sp -> href ∈ hrefs sp') ->
  detect_last_page sp <= detect_last_page sp'
  /\ ((forall href, href ∈ hrefs sp' -> href ∈ hrefs sp) ->
      detect_last_page sp = detect_last_page sp').
Proof.
  assert (Hle : forall a b : soup,
             (forall href, href ∈ hrefs a -> href ∈ hrefs b) ->
             detect_last_page a <= detect_last_page b).
  { intros a b Hincl. rewrite !detect_last_page_fold.
    destruct (fold_max_attained (page_numbers a) 1) as [->|Hin].
    - apply fold_max_ge_init.
    - apply fold_max_ge_elem. unfold page_numbers in *.
      apply list_elem_of_omap in Hin as (href & Hh & Hl).
      apply list_elem_of_omap. exists href. split; [now apply Hincl|exact Hl]. }
  intros Hincl. split; [now apply Hle|].
  intros Hincl'. apply N.le_antisymm; now apply Hle.
Qed.

Lemma detect_last_page_links_witness :
  (forall href, href ∈ hrefs {| hrefs := []; containers := [] |} ->
                href ∈ hrefs three_links)
  /\ detect_last_page (U := latin1_db) {| hrefs := []; containers := [] |}
     <= detect_last_page (U := latin1_db) three_links.
Proof.
  assert (H : forall href, href ∈ hrefs {| hrefs := []; containers := [] |} ->
                           href ∈ hrefs three_links)
    by (intros href Hin; now apply elem_of_nil in Hin).
  split; [exact H|].
  apply (detect_last_page_links (U := latin1_db)
           {| hrefs := []; containers := [] |} three_links H).
Defined.

(** ** The evaluation form *)

(** X17. For marks between 1 and 5 the stored rating is between the
    two marks, hence between 1 and 5, and within a half of their mean;
    when the mean falls on a half it goes to the even neighbour, so the
    marks 2 and 3 give 2 while 3 and 4 give 4. *)
Theorem evaluation_rating_range (likert1 likert2 : Z) :
  (1 <= likert1 <= 5)%Z -> (1 <= likert2 <= 5)%Z ->
  (Z.min likert1 likert2 <= evaluation_rating likert1 likert2
   <= Z.max likert1 likert2)%Z
  /\ (1 <= evaluation_rating likert1 likert2 <= 5)%Z
  /\ (Z.abs (2 * evaluation_rating likert1 likert2 - (likert1 + likert2))
      <= 1)%Z
  /\ (Z.odd (likert1 + likert2) = true ->
      Z.even (evaluation_rating likert1 likert2) = true)
  /\ evaluation_rating likert1 likert2 = evaluation_rating likert2 likert1.
Proof.
  intros H1 H2.
  assert (C1 : (likert1 = 1 \/ likert1 = 2 \/ likert1 = 3 \/ likert1 = 4
                \/ likert1 = 5)%Z) by lia.
  assert (C2 : (likert2 = 1 \/ likert2 = 2 \/ likert2 = 3 \/ likert2 = 4
                \/ likert2 = 5)%Z) by lia.
  destruct C1 as [ -> | [ -> | [ -> | [ -> | -> ] ] ] ];
    destruct C2 as [ -> | [ -> | [ -> | [ -> | -> ] ] ] ];
    vm_compute; repeat split; intros; congruence.
Qed.

Lemma evaluation_rating_range_witness :
  (1 <= 2 <= 5)%Z /\ (1 <= 3 <= 5)%Z
  /\ (1 <= evaluation_rating 2 3 <= 5)%Z.
Proof.
  assert (H1 : (1 <= 2 <= 5)%Z) by lia.
  assert (H2 : (1 <= 3 <= 5)%Z) by lia.
  split; [exact H1|]. split; [exact H2|].
  apply (evaluation_rating_range 2 3 H1 H2).
Defined.

(** ** Uniqueness of imported rows *)

Lemma upload_match_values (r r' : raw_row) (a b c d : str) :
  raw_values r = (Some a, Some b, Some c, Some d) ->
  raw_values r' = raw_values r ->
  upload_match (raw_v1 r) (raw_v2 r) (raw_v3 r) (raw_v4 r) r' = true.
Proof.
  unfold raw_values, upload_match. intros [= -> -> -> ->] [= -> -> -> ->].
  now rewrite !sql_text_eq_refl.
Qed.

Lemma fresh_not_in (store : list raw_row) (r : raw_row) (a b c d : str) :
  raw_values r = (Some a, Some b, Some c, Some d) ->
  in_store (raw_values r) store = false ->
  raw_values r ∉ List.map raw_values store.
Proof.
  intros Hv Hfresh Hin.
  apply list_elem_of_fmap in Hin as (r' & Heq & Hr').
  assert (Hex : in_store (raw_values r) store = true).
  { unfold in_store, raw_values at 1.
    apply existsb_exists. exists r'. split; [now apply list_elem_of_In|].
    now apply (upload_match_values r r' a b c d). }
  congruence.
Qed.

(** X18. When no two rows of [raw_data] carry the same four values
    [v1] to [v4], this still holds after an import: the import never
    stores a row whose four values are in the store already, be it from
    an earlier row of the same file. *)
Theorem save_uploaded_to_raw_unique (df : list (gmap str pyval)) (w : world) :
  NoDup (List.map raw_values (raw_data w)) ->
  NoDup (List.map raw_values (raw_data (snd (save_uploaded_to_raw df w)))).
Proof.
  intros Hu. unfold save_uploaded_to_raw.
  destruct (save_rows_spec df 0%nat w)
    as (new & w' & -> & Hraw & _ & Hnew & Hfresh & _).
  cbn [snd]. rewrite Hraw. clear Hraw.
  induction new as [|r new IH] using rev_ind; [now rewrite app_nil_r|].
  apply Forall_app in Hnew as [Hnew Hr].
  apply Forall_cons in Hr as [(_ & _ & row & _ & Hv) _].
  rewrite app_assoc, map_app. cbn [List.map].
  apply NoDup_app. split; [|split; [|apply NoDup_singleton]].
  - apply IH; [exact Hnew|].
    intros l1 x l2 Hsplit. apply (Hfresh l1 x (l2 ++ [r])).
    rewrite Hsplit. now rewrite <- app_assoc.
  - intros v Hv1 Hv2. apply list_elem_of_singleton in Hv2 as ->.
    unfold stringified in Hv.
    destruct (upload_fields row) as [[[v1 v2] v3] v4].
    revert Hv1. apply (fresh_not_in _ r _ _ _ _ Hv).
    apply (Hfresh new r []). reflexivity.
Qed.

Lemma save_uploaded_to_raw_unique_witness :
  NoDup (List.map raw_values (raw_data empty_world))
  /\ NoDup (List.map raw_values
              (raw_data (snd (save_uploaded_to_raw [rex_row; rex_row]
                                empty_world)))).
Proof.
  assert (H : NoDup (List.map raw_values (raw_data empty_world)))
    by constructor.
  split; [exact H|].
  exact (save_uploaded_to_raw_unique [rex_row; rex_row] empty_world H).
Defined.

(** ** Sample runs of the two-run properties *)

Lemma twin_site_complete (page : nat) (sp : soup) (cont : container) :
  twin_site (page_url chiens_url page) = Some sp ->
  cont ∈ containers sp -> complete cont.
Proof.
  unfold twin_site. destruct (bool_decide _); [|discriminate].
  intros [= <-]. cbn [containers]. intros Hc.
  assert (Hfull : cont = full_card).
  { apply elem_of_cons in Hc as [->|Hc]; [reflexivity|].
    apply elem_of_cons in Hc as [->|Hc]; [reflexivity|].
    now apply elem_of_nil in Hc. }
  rewrite Hfull. do 4 eexists. vm_compute. reflexivity.
Qed.

Lemma scrape_category_twice_complete_witness :
  let run1 := scrape_category (U := latin1_db) twin_site (u "chiens") None
                true empty_world in
  let run2 := scrape_category (U := latin1_db) twin_site (u "chiens") None
                true (snd run1) in
  CATEGORIES !! u "chiens" = Some chiens_url
  /\ raw_data (snd run2) = raw_data (snd run1).
Proof.
  intros run1 run2. split; [reflexivity|].
  apply (scrape_category_twice_complete (U := latin1_db) twin_site
           (u "chiens") chiens_url None empty_world (snd run1) (snd run2)
           (match fst run1 with inr rows => rows | inl _ => [] end)
           (match fst run2 with inr rows => rows | inl _ => [] end)).
  - reflexivity.
  - exact twin_site_complete.
  - vm_compute. reflexivity.
  - vm_compute. reflexivity.
Defined.

Lemma clean_twice_present_witness :
  let df := [{| r_category := Some (u "chiens"); r_v1 := PStr (u "Rex");
                r_v2 := PStr (u "12 500 CFA"); r_v3 := PStr (u "Dakar");
                r_v4 := None |}] in
  let run1 := clean_raw_dataframe (U := latin1_db) df empty_world in
  let run2 := clean_raw_dataframe (U := latin1_db) df (snd run1) in
  (forall r, r ∈ df -> present (clean_row (U := latin1_db) r))
  /\ cleaned_data (snd run2) = cleaned_data (snd run1).
Proof.
  intros df run1 run2.
  assert (Hp : forall r, r ∈ df -> present (clean_row (U := latin1_db) r)).
  { intros r Hr. apply elem_of_cons in Hr as [->|Hr];
      [|now apply elem_of_nil in Hr].
    do 4 eexists. vm_compute. reflexivity. }
  split; [exact Hp|].
  apply (clean_twice_present (U := latin1_db) df empty_world (snd run1)
           (snd run2)
           (match fst run1 with inr t => t | inl _ => [] end)
           (match fst run2 with inr t => t | inl _ => [] end) Hp).
  - vm_compute. reflexivity.
  - vm_compute. reflexivity.
Defined.
